(** * Verification of the Parquet splitter job (src/Split/parquet-splitter.py)

    A shallow embedding of [process_kind] and of the helpers it calls.
    Python [str] values are [string]s, Python sets of strings are
    [gset string], the S3 namespace is a finite map from (bucket, key) to
    the stored object, and every S3 call is recorded in an event trace. *)

From Stdlib Require Import ZArith Ascii String.
From stdpp Require Import base decidable option list sorting gmap strings pretty.

(** * Part I: the embedding of the program *)

(** ** Python string primitives used by the job *)

Module PyStr.

Definition sep : ascii := "/"%char.

(** ['/' in s] *)
Fixpoint has_sep (s : string) : bool :=
  match s with
  | EmptyString => false
  | String c r => Ascii.eqb c sep || has_sep r
  end.

(** [k.rsplit("/", 1)[-1]]: what follows the last separator, the whole
    string when there is none. *)
Fixpoint basename (k : string) : string :=
  match k with
  | EmptyString => EmptyString
  | String c r =>
      if has_sep r then basename r
      else if Ascii.eqb c sep then r else k
  end.

(** [s.endswith(suffix)] *)
Fixpoint endswith (s suffix : string) : bool :=
  String.eqb s suffix ||
  match s with
  | EmptyString => false
  | String _ r => endswith r suffix
  end.

(** [s.startswith(p)], which is also how S3 matches a listing [Prefix]. *)
Fixpoint startswith (s p : string) : bool :=
  match p, s with
  | EmptyString, _ => true
  | String _ _, EmptyString => false
  | String a p', String b s' => Ascii.eqb a b && startswith s' p'
  end.

(** [s[:-n]] for a positive literal [n]: the string without its last [n]
    characters, empty when it has no more than [n]. *)
Definition drop_end (n : nat) (s : string) : string :=
  String.substring 0 (String.length s - n) s.

(** [s.rstrip('/')] *)
Fixpoint rstrip_sep (s : string) : string :=
  match s with
  | EmptyString => EmptyString
  | String c r =>
      match rstrip_sep r with
      | EmptyString => if Ascii.eqb c sep then EmptyString else String c EmptyString
      | r' => String c r'
      end
  end.

End PyStr.

Import PyStr.

(** ** KeySetDiffer: lines 62-81 and 135-138 *)

(** [extract_dates_from_keys], lines 62-69: the loop adds to the set
    [dates] one key after the other. *)
Definition extract_dates_from_keys (keys : list string) : gset string :=
  foldl (fun dates k =>
           let base := basename k in
           if endswith base ".parquet" then dates ∪ {[ drop_end 8 base ]}
           else dates)
        ∅ keys.

(** [extract_dates_from_marker_keys], lines 74-81. *)
Definition extract_dates_from_marker_keys (keys : list string) : gset string :=
  foldl (fun dates k =>
           let base := basename k in
           if endswith base ".json" then dates ∪ {[ drop_end 5 base ]}
           else dates)
        ∅ keys.

(** [sorted(s)] on a set of strings: Python orders [str] by code point,
    here by character code. *)
Definition sorted (s : gset string) : list string :=
  merge_sort String.le (elements s).


(** The unit identifier of a key as the specification words it: the final
    path segment with the role's suffix stripped, keys without the suffix
    having none. *)
Definition unit_id (suffix : string) (key : string) : option string :=
  let segment := basename key in
  if endswith segment suffix
  then Some (drop_end (String.length suffix) segment)
  else None.

(** Strictly ascending order on unit identifiers. *)
Definition str_lt (a b : string) : Prop := String.le a b ∧ a ≠ b.


(** ** Tables: what [pd.read_parquet] returns *)

(** A value of the partition-key column as the loop variable [Item_ID]
    receives it from [groupby]. *)
Inductive scalar :=
  | Str (s : string)
  | Int (z : Z).

Global Instance scalar_eq_dec : EqDecision scalar.
Proof. solve_decision. Defined.

(** A column has one dtype, as a Parquet column does; [None] is a missing
    value (NaN / None). *)
Inductive column :=
  | StrColumn (vals : list (option string))
  | IntColumn (vals : list (option Z)).

Global Instance column_eq_dec : EqDecision column.
Proof. solve_decision. Defined.

(** A DataFrame: the number of rows of its index and its labelled columns,
    each holding one cell per row. *)
Record DataFrame := {
  nrows : nat;
  columns : list (string * column)
}.

Global Instance DataFrame_eq_dec : EqDecision DataFrame.
Proof. solve_decision. Defined.

Module Frame.

(** [str(v)], what an f-string interpolates. *)
Definition py_str (v : scalar) : string :=
  match v with
  | Str s => s
  | Int z => pretty z
  end.

(** The order [groupby(sort=True)] lists group keys in. *)
Definition scalar_le (a b : scalar) : Prop :=
  match a, b with
  | Str x, Str y => String.le x y
  | Int x, Int y => (x ≤ y)%Z
  | Int _, Str _ => True
  | Str _, Int _ => False
  end.

Global Instance scalar_le_dec : RelDecision scalar_le.
Proof. intros [x|x] [y|y]; simpl; apply _. Defined.

(** The cell of a column at a row position; out of the column's range
    the value is missing. *)
Definition cell (c : column) (i : nat) : option scalar :=
  match c with
  | StrColumn vals => Str <$> mjoin (vals !! i)
  | IntColumn vals => Int <$> mjoin (vals !! i)
  end.

(** [df.empty]: an axis of length 0. *)
Definition empty (df : DataFrame) : bool :=
  bool_decide (nrows df = 0%nat) || bool_decide (columns df = []).

(** [name in df.columns] *)
Definition has_column (name : string) (df : DataFrame) : bool :=
  bool_decide (name ∈ (columns df).*1).

(** [df[name]], the first column carrying the label. *)
Definition get_column (name : string) (df : DataFrame) : option column :=
  (fun found => found.2.2) <$> list_find (fun c => c.1 = name) (columns df).

(** The partition key of row [i]: [None] for a missing value. *)
Definition key_at (name : string) (df : DataFrame) (i : nat) : option scalar :=
  get_column name df ≫= fun c => cell c i.

(** The rows at the given positions, in that order: a sub-frame. *)
Definition take_column (idxs : list nat) (c : column) : column :=
  match c with
  | StrColumn vals => StrColumn ((fun i => mjoin (vals !! i)) <$> idxs)
  | IntColumn vals => IntColumn ((fun i => mjoin (vals !! i)) <$> idxs)
  end.

Definition take (idxs : list nat) (df : DataFrame) : DataFrame :=
  {| nrows := length idxs;
     columns := prod_map id (take_column idxs) <$> columns df |}.

(** [df.groupby(name)] with pandas' defaults [sort=True, dropna=True]:
    one group per distinct value present in the column, keys ascending,
    each group the positions of the rows carrying the key; rows whose key
    is missing belong to no group. *)
Definition group_positions (name : string) (df : DataFrame) : list (scalar * list nat) :=
  let positions := seq 0 (nrows df) in
  let keys := merge_sort scalar_le (remove_dups (omap (key_at name df) positions)) in
  (fun k => (k, filter (fun i => key_at name df i = Some k) positions)) <$> keys.

(** Iterating [df.groupby(name)] yields [(key, sub-frame)] pairs. *)
Definition groupby (name : string) (df : DataFrame) : list (scalar * DataFrame) :=
  prod_map id (fun idxs => take idxs df) <$> group_positions name df.

(** [df[name].nunique()]: distinct values, missing ones not counted. *)
Definition nunique (name : string) (df : DataFrame) : nat :=
  length (remove_dups (omap (key_at name df) (seq 0 (nrows df)))).

End Frame.

Import Frame.

(** ** The object store, the clock and the thread pool *)

(** [time.gmtime()] *)
Record struct_time := {
  tm_year : Z; tm_mon : Z; tm_mday : Z;
  tm_hour : Z; tm_min : Z; tm_sec : Z
}.

(** The marker document of lines 177-184, a dict with these six keys. *)
Record marker_doc := {
  doc_kind : string;
  doc_date : string;
  doc_input_key : string;
  doc_outputs : list string;
  doc_output_count : nat;
  doc_generated_at : string
}.

(** What a key of a bucket holds: the Parquet encoding of a table or a
    JSON document. The codec is lossless, so the object is identified
    with what it decodes to. *)
Inductive object :=
  | ParquetFile (df : DataFrame)
  | JsonFile (doc : marker_doc).

Global Instance marker_doc_eq_dec : EqDecision marker_doc.
Proof. solve_decision. Defined.

Global Instance object_eq_dec : EqDecision object.
Proof. solve_decision. Defined.

(** Exceptions the job meets. *)
Inductive exn :=
  | NoSuchKey (bucket key : string)
  | ArrowInvalid (bucket key : string)
  | ValueError (msg : string)
  | PutError (bucket key : string).

Inductive result (A : Type) :=
  | Ok (a : A)
  | Raise (e : exn).
Arguments Ok {A} a.
Arguments Raise {A} e.

(** The calls the job makes on the S3 client, as they happen. *)
Inductive event :=
  | ListObjects (bucket prefix : string)
  | GetObject (bucket key : string)
  | PutObject (bucket key : string)
  | PutFailed (bucket key : string).

Global Instance event_eq_dec : EqDecision event.
Proof. solve_decision. Defined.

Record state := {
  objects : gmap (string * string) object;
  trace : list event
}.

(** The arguments of [write_one_partition]: sub-frame, bucket, key. *)
Definition task : Type := DataFrame * string * string.

(** The range of the fields [time.gmtime()] returns, for a four-digit year. *)
Definition tm_in_range (t : struct_time) : Prop :=
  (1000 ≤ tm_year t < 10000 ∧ 1 ≤ tm_mon t ≤ 12 ∧ 1 ≤ tm_mday t ≤ 31
   ∧ 0 ≤ tm_hour t ≤ 23 ∧ 0 ≤ tm_min t ≤ 59 ∧ 0 ≤ tm_sec t ≤ 61)%Z.

(** What the job does not control: the module-level [MAX_WORKERS], which
    puts the store rejects, the order in which the pool's workers carry out
    the submitted writes, the order in which [as_completed] hands the
    futures back, and the clock, read here against the number of store
    calls made so far. Any permutation is allowed for the two orders, which
    covers every interleaving a pool of any size can produce. *)
Record world := {
  MAX_WORKERS : Z;
  put_fails : string → string → bool;
  start_order : list task → list task;
  yield_order : list (result string) → list (result string);
  gmtime : nat → struct_time;
  start_order_perm : ∀ ts, start_order ts ≡ₚ ts;
  yield_order_perm : ∀ fs, yield_order fs ≡ₚ fs;
  gmtime_in_range : ∀ n, tm_in_range (gmtime n)
}.

Definition log (ev : event) (st : state) : state :=
  {| objects := objects st; trace := trace st ++ [ev] |}.

Definition store (bucket key : string) (o : object) (st : state) : state :=
  {| objects := <[(bucket, key) := o]> (objects st);
     trace := trace st ++ [PutObject bucket key] |}.

(** The keys a bucket holds, ascending as S3 lists them. *)
Definition bucket_keys (st : state) (bucket : string) : list string :=
  merge_sort String.le
    (omap (fun bk : string * string => if decide (bk.1 = bucket) then Some bk.2 else None)
          (elements (dom (objects st)))).

(** [list_keys_with_suffix], lines 48-57: every page of the listing under
    [prefix], keeping the keys that end with [suffix]. *)
Definition list_keys_with_suffix (st : state) (bucket prefix suffix : string)
  : state * list string :=
  (log (ListObjects bucket prefix) st,
   filter (fun k => endswith k suffix)
          (filter (fun k => startswith k prefix) (bucket_keys st bucket))).

(** [read_parquet_s3], lines 84-88. *)
Definition read_parquet_s3 (st : state) (bucket key : string) : state * result DataFrame :=
  let st' := log (GetObject bucket key) st in
  match objects st !! (bucket, key) with
  | None => (st', Raise (NoSuchKey bucket key))
  | Some (ParquetFile df) => (st', Ok df)
  | Some (JsonFile _) => (st', Raise (ArrowInvalid bucket key))
  end.

(** [s3.put_object]: the store takes the object or the call raises. *)
Definition put_object (w : world) (st : state) (bucket key : string) (o : object)
  : state * result unit :=
  if put_fails w bucket key
  then (log (PutFailed bucket key) st, Raise (PutError bucket key))
  else (store bucket key o st, Ok ()).

(** [write_one_partition], lines 102-105; the payload of
    [df_to_parquet_bytes_] is the encoded sub-frame. *)
Definition write_one_partition (w : world) (st : state) (t : task) : state * result string :=
  let '(Item_ID_df, out_bucket, out_key) := t in
  match put_object w st out_bucket out_key (ParquetFile Item_ID_df) with
  | (st', Ok _) => (st', Ok out_key)
  | (st', Raise e) => (st', Raise e)
  end.

(** [put_json], lines 108-114. *)
Definition put_json (w : world) (st : state) (bucket key : string) (doc : marker_doc)
  : state * result unit :=
  put_object w st bucket key (JsonFile doc).

(** The pool carries out the submitted tasks, each future receiving its
    task's result; leaving the [with] block waits for all of them. *)
Fixpoint run_tasks (w : world) (st : state) (ts : list task)
  : state * list (result string) :=
  match ts with
  | [] => (st, [])
  | t :: ts' =>
      let '(st1, r) := write_one_partition w st t in
      let '(st2, rs) := run_tasks w st1 ts' in
      (st2, r :: rs)
  end.

(** [f"s3://{bucket}/{key}"], lines 171 and 180. *)
Definition s3_uri (bucket key : string) : string :=
  "s3://" +:+ bucket +:+ "/" +:+ key.

(** Lines 169-171: [f.result()] re-raises the task's exception, otherwise
    the written location is appended to [outputs_written]. *)
Fixpoint collect (out_bucket : string) (fs : list (result string)) (outputs_written : list string)
  : result (list string) :=
  match fs with
  | [] => Ok outputs_written
  | Ok out_key :: fs' =>
      collect out_bucket fs' (outputs_written ++ [s3_uri out_bucket out_key])
  | Raise e :: _ => Raise e
  end.

(** [time.strftime("%Y-%m-%dT%H:%M:%SZ", t)] *)
Fixpoint zeros (n : nat) : string :=
  match n with
  | O => ""
  | S n' => String "0" (zeros n')
  end.

Definition zero_pad (width : nat) (n : Z) : string :=
  let digits := pretty n in
  zeros (width - String.length digits) +:+ digits.

Definition strftime (t : struct_time) : string :=
  pretty (tm_year t) +:+ "-" +:+ zero_pad 2 (tm_mon t) +:+ "-" +:+ zero_pad 2 (tm_mday t)
  +:+ "T" +:+ zero_pad 2 (tm_hour t) +:+ ":" +:+ zero_pad 2 (tm_min t)
  +:+ ":" +:+ zero_pad 2 (tm_sec t) +:+ "Z".

(** ** [process_kind], lines 117-196 *)

Record args := {
  kind : string;
  in_bucket : string;
  in_prefix : string;
  out_bucket : string;
  out_prefix : string;
  marker_prefix : string
}.

(** The dict returned at lines 190-196. *)
Record summary := {
  sum_kind : string;
  input_files : nat;
  output_files : nat;
  missing_dates : list string;
  processed_days : nat
}.

(** How the body of the loop over [missing_dates] ends for one date when
    it does not raise: at the end of the body, or at one of the two
    [continue]s. *)
Inductive outcome :=
  | Marked
  | SkippedMissing
  | SkippedEmpty.

(** Lines 119-121: [p.rstrip('/') + '/']. *)
Definition normalize (p : string) : string := rstrip_sep p +:+ "/".

Definition normalized (a : args) : args :=
  {| kind := kind a;
     in_bucket := in_bucket a;
     in_prefix := normalize (in_prefix a);
     out_bucket := out_bucket a;
     out_prefix := normalize (out_prefix a);
     marker_prefix := normalize (marker_prefix a) |}.

(** The three key conventions, lines 145, 167 and 176. *)
Definition in_key_of (a : args) (date : string) : string :=
  in_prefix a +:+ date +:+ ".parquet".

Definition out_key_of (a : args) (Item_ID : scalar) (date : string) : string :=
  out_prefix a +:+ py_str Item_ID +:+ "/" +:+ date +:+ ".parquet".

Definition marker_key_of (a : args) (date : string) : string :=
  marker_prefix a +:+ date +:+ ".json".

(** Lines 166-168: one task per group, in the order [groupby] yields them. *)
Definition submitted (a : args) (date : string) (df : DataFrame) : list task :=
  (fun g : scalar * DataFrame => (g.2, out_bucket a, out_key_of a g.1 date))
    <$> groupby "Item_ID" df.

(** Lines 177-184. *)
Definition marker_doc_of (w : world) (a : args) (st : state) (date : string)
    (outputs_written : list string) : marker_doc :=
  {| doc_kind := kind a;
     doc_date := date;
     doc_input_key := s3_uri (in_bucket a) (in_key_of a date);
     doc_outputs := outputs_written;
     doc_output_count := length outputs_written;
     doc_generated_at := strftime (gmtime w (length (trace st))) |}.

(** The body of the loop, lines 145-188, for one date; the prefixes of [a]
    are the normalized ones. *)
Definition process_date (w : world) (a : args) (st : state) (date : string)
  : state * result outcome :=
  let in_key := in_key_of a date in
  match read_parquet_s3 st (in_bucket a) in_key with
  | (st1, Raise (NoSuchKey _ _)) => (st1, Ok SkippedMissing)
  | (st1, Raise e) => (st1, Raise e)
  | (st1, Ok df) =>
      if empty df then (st1, Ok SkippedEmpty)
      else if negb (has_column "Item_ID" df)
      then (st1, Raise (ValueError ("'Item_ID' column missing in " +:+ in_key)))
      else if bool_decide (MAX_WORKERS w ≤ 0)%Z
      then (st1, Raise (ValueError "max_workers must be greater than 0"))
      else
        let futures := submitted a date df in
        let '(st2, done) := run_tasks w st1 (start_order w futures) in
        match collect (out_bucket a) (yield_order w done) [] with
        | Raise e => (st2, Raise e)
        | Ok outputs_written =>
            let marker_key := marker_key_of a date in
            let marker_doc := marker_doc_of w a st2 date outputs_written in
            match put_json w st2 (out_bucket a) marker_key marker_doc with
            | (st3, Raise e) => (st3, Raise e)
            | (st3, Ok _) => (st3, Ok Marked)
            end
        end
  end.

(** The loop of line 144, with the counter [processed]. *)
Fixpoint for_dates (w : world) (a : args) (st : state) (processed : nat)
    (dates : list string) : state * result nat :=
  match dates with
  | [] => (st, Ok processed)
  | date :: rest =>
      match process_date w a st date with
      | (st', Raise e) => (st', Raise e)
      | (st', Ok Marked) => for_dates w a st' (S processed) rest
      | (st', Ok _) => for_dates w a st' processed rest
      end
  end.

(** Lines 125-138: the two listings and the dates they leave to process. *)
Definition input_dates_in (a : args) (st : state) : gset string :=
  extract_dates_from_keys (list_keys_with_suffix st (in_bucket a) (in_prefix a) ".parquet").2.

Definition done_dates_in (a : args) (st : state) : gset string :=
  extract_dates_from_marker_keys
    (list_keys_with_suffix st (out_bucket a) (marker_prefix a) ".json").2.

Definition process_kind (w : world) (raw : args) (st : state) : state * result summary :=
  let a := normalized raw in
  let '(st1, in_keys) := list_keys_with_suffix st (in_bucket a) (in_prefix a) ".parquet" in
  let '(st2, marker_keys) :=
    list_keys_with_suffix st1 (out_bucket a) (marker_prefix a) ".json" in
  let input_dates := extract_dates_from_keys in_keys in
  let done_dates := extract_dates_from_marker_keys marker_keys in
  let missing_dates := sorted (input_dates ∖ done_dates) in
  match for_dates w a st2 0 missing_dates with
  | (st3, Raise e) => (st3, Raise e)
  | (st3, Ok processed) =>
      (st3, Ok {| sum_kind := kind a;
                  input_files := size input_dates;
                  output_files := size done_dates;
                  missing_dates := missing_dates;
                  processed_days := processed |})
  end.

(** ** The scenario of the specification's section 8 *)

Module Scenario.

Definition instant : struct_time :=
  {| tm_year := 2025; tm_mon := 1; tm_mday := 9;
     tm_hour := 3; tm_min := 4; tm_sec := 5 |}.

Definition instant_in_range : tm_in_range instant :=
  ltac:(unfold tm_in_range; simpl; lia).

(** Every put is accepted; the pool works and yields in submission
    order. *)
Definition calm : world :=
  {| MAX_WORKERS := 24;
     put_fails := fun _ _ => false;
     start_order := fun ts => ts;
     yield_order := fun fs => fs;
     gmtime := fun _ => instant;
     start_order_perm := fun ts => Permutation_refl ts;
     yield_order_perm := fun fs => Permutation_refl fs;
     gmtime_in_range := fun _ => instant_in_range |}.

(** The put of partition B is rejected; the pool works in reverse
    order. *)
Definition flaky : world :=
  {| MAX_WORKERS := 24;
     put_fails := fun _ k => bool_decide (k = "out/B/20250101.parquet");
     start_order := reverse;
     yield_order := fun fs => fs;
     gmtime := fun _ => instant;
     start_order_perm := reverse_Permutation;
     yield_order_perm := fun fs => Permutation_refl fs;
     gmtime_in_range := fun _ => instant_in_range |}.

Definition job : args :=
  {| kind := "demo"; in_bucket := "src"; in_prefix := "in";
     out_bucket := "dst"; out_prefix := "out/"; marker_prefix := "marker//" |}.

Definition day1 : DataFrame :=
  {| nrows := 3;
     columns := [("Item_ID", StrColumn [Some "A"; Some "A"; Some "B"]);
                 ("qty", IntColumn [Some 1; Some 2; Some 3]%Z)] |}.

Definition day2 : DataFrame :=
  {| nrows := 0; columns := [("Item_ID", StrColumn []); ("qty", IntColumn [])] |}.

Definition before : state :=
  {| objects := <[("src", "in/20250101.parquet") := ParquetFile day1]>
                (<[("src", "in/20250108.parquet") := ParquetFile day2]> ∅);
     trace := [] |}.

End Scenario.

(** ** Notions the properties are stated with *)

(** Rows whose key, read by [key], is one of [ks]. *)
Definition keyed_in {K : Type} (key : nat → option K) (ks : list K) (i : nat) : Prop :=
  ∃ k, k ∈ ks ∧ key i = Some k.

Global Instance keyed_in_dec {K : Type} `{EqDecision K} (key : nat → option K)
    (ks : list K) (i : nat) : Decision (keyed_in key ks i).
Proof.
  unfold keyed_in. destruct (key i) as [k|].
  - destruct (decide (k ∈ ks)); [left; eauto | right].
    intros (k' & Hk' & [= <-]). done.
  - right. intros (? & _ & [=]).
Defined.

(** The claim as the specification words it: the partitions, as lists of
    row positions, together hold every row of the table exactly once. *)
Definition partitions_recover_table (df : DataFrame) : Prop :=
  concat (group_positions "Item_ID" df).*2 ≡ₚ seq 0 (nrows df).

Module NullKey.

(** Two rows, the second with a missing [Item_ID]. *)
Definition df : DataFrame :=
  {| nrows := 2;
     columns := [("Item_ID", StrColumn [Some "A"; None]);
                 ("qty", IntColumn [Some 7; Some 9]%Z)] |}.

Definition before : state :=
  {| objects := {[ ("src", "in/20250101.parquet") := ParquetFile df ]};
     trace := [] |}.

End NullKey.

(** What a task leaves in the trace and in its future. *)
Definition task_event (w : world) (t : task) : event :=
  if put_fails w t.1.2 t.2 then PutFailed t.1.2 t.2 else PutObject t.1.2 t.2.

Definition task_result (w : world) (t : task) : result string :=
  if put_fails w t.1.2 t.2 then Raise (PutError t.1.2 t.2) else Ok t.2.

(** The store after the tasks [ts] were carried out in that order. *)
Definition written (w : world) (ts : list task) (m : gmap (string * string) object)
  : gmap (string * string) object :=
  foldl (fun m t => if put_fails w t.1.2 t.2 then m
                    else <[(t.1.2, t.2) := ParquetFile t.1.1]> m) m ts.

Definition is_ok (r : result string) : Prop :=
  match r with Ok _ => True | Raise _ => False end.

Definition ok_keys (fs : list (result string)) : list string :=
  omap (fun r => match r with Ok k => Some k | Raise _ => None end) fs.

(** The futures of a unit, in the order [as_completed] yields them. *)
Definition yielded (w : world) (a : args) (date : string) (df : DataFrame)
  : list (result string) :=
  yield_order w (task_result w <$> start_order w (submitted a date df)).

(** The state once the pool has carried out every write of the unit. *)
Definition after_writes (w : world) (a : args) (st : state) (date : string)
    (df : DataFrame) : state :=
  {| objects := written w (start_order w (submitted a date df)) (objects st);
     trace := trace st ++ GetObject (in_bucket a) (in_key_of a date)
                :: (task_event w <$> start_order w (submitted a date df)) |}.

(** The table is loaded and passes the checks of lines 154-159, and the
    pool can be created. *)
Definition splittable (w : world) (a : args) (st : state) (date : string)
    (df : DataFrame) : Prop :=
  objects st !! (in_bucket a, in_key_of a date) = Some (ParquetFile df)
  ∧ empty df = false
  ∧ has_column "Item_ID" df = true
  ∧ (0 < MAX_WORKERS w)%Z.

Fixpoint last_char (s : string) : option ascii :=
  match s with
  | EmptyString => None
  | String c EmptyString => Some c
  | String _ r => last_char r
  end.

(** The state in which the loop starts: both listings are done. *)
Definition listed (a : args) (st : state) : state :=
  log (ListObjects (out_bucket a) (marker_prefix a))
    (log (ListObjects (in_bucket a) (in_prefix a)) st).

(** [missing_dates] of line 138 for the store of [st]. *)
Definition outstanding (a : args) (st : state) : list string :=
  sorted (input_dates_in a st ∖ done_dates_in a st).

(** Lines 190-196 after the loop. *)
Definition finish (a : args) (st0 : state) (r : state * result nat) : state * result summary :=
  match r with
  | (st3, Raise e) => (st3, Raise e)
  | (st3, Ok processed) =>
      (st3, Ok {| sum_kind := kind a;
                  input_files := size (input_dates_in a st0);
                  output_files := size (done_dates_in a st0);
                  missing_dates := outstanding a st0;
                  processed_days := processed |})
  end.

(** The run of [process_kind] from [st0] has gone through the dates
    [before] without raising and is about to process [date], in state [st]
    with the counter at [n]; [rest] is still to come. *)
Definition reaches (w : world) (raw : args) (st0 : state) (before : list string)
    (date : string) (rest : list string) (st : state) (n : nat) : Prop :=
  outstanding (normalized raw) st0 = before ++ date :: rest
  ∧ for_dates w (normalized raw) (listed (normalized raw) st0) 0 before = (st, Ok n).

(** How the loop body can end for [date] from [st], with the state it
    leaves: the transitions of lines 145-188, one constructor each. *)
Inductive unit_run (w : world) (a : args) (st : state) (date : string)
  : state → result outcome → Prop :=
  | run_missing :
      objects st !! (in_bucket a, in_key_of a date) = None →
      unit_run w a st date
        (log (GetObject (in_bucket a) (in_key_of a date)) st) (Ok SkippedMissing)
  | run_undecodable doc :
      objects st !! (in_bucket a, in_key_of a date) = Some (JsonFile doc) →
      unit_run w a st date
        (log (GetObject (in_bucket a) (in_key_of a date)) st)
        (Raise (ArrowInvalid (in_bucket a) (in_key_of a date)))
  | run_empty df :
      objects st !! (in_bucket a, in_key_of a date) = Some (ParquetFile df) →
      empty df = true →
      unit_run w a st date
        (log (GetObject (in_bucket a) (in_key_of a date)) st) (Ok SkippedEmpty)
  | run_no_key_column df :
      objects st !! (in_bucket a, in_key_of a date) = Some (ParquetFile df) →
      empty df = false →
      has_column "Item_ID" df = false →
      unit_run w a st date
        (log (GetObject (in_bucket a) (in_key_of a date)) st)
        (Raise (ValueError ("'Item_ID' column missing in " +:+ in_key_of a date)))
  | run_no_pool df :
      objects st !! (in_bucket a, in_key_of a date) = Some (ParquetFile df) →
      empty df = false →
      has_column "Item_ID" df = true →
      (MAX_WORKERS w ≤ 0)%Z →
      unit_run w a st date
        (log (GetObject (in_bucket a) (in_key_of a date)) st)
        (Raise (ValueError "max_workers must be greater than 0"))
  | run_write_failed df ks e post :
      splittable w a st date df →
      yielded w a date df = (Ok <$> ks) ++ Raise e :: post →
      unit_run w a st date (after_writes w a st date df) (Raise e)
  | run_marker_failed df :
      splittable w a st date df →
      Forall (fun t : task => put_fails w t.1.2 t.2 = false) (submitted a date df) →
      put_fails w (out_bucket a) (marker_key_of a date) = true →
      unit_run w a st date
        (log (PutFailed (out_bucket a) (marker_key_of a date)) (after_writes w a st date df))
        (Raise (PutError (out_bucket a) (marker_key_of a date)))
  | run_marked df :
      splittable w a st date df →
      Forall (fun t : task => put_fails w t.1.2 t.2 = false) (submitted a date df) →
      put_fails w (out_bucket a) (marker_key_of a date) = false →
      unit_run w a st date
        (store (out_bucket a) (marker_key_of a date)
           (JsonFile (marker_doc_of w a (after_writes w a st date df) date
                        (s3_uri (out_bucket a) <$> ok_keys (yielded w a date df))))
           (after_writes w a st date df))
        (Ok Marked).

(** The S3 calls the body of the loop can make for [date]. *)
Inductive unit_event (a : args) (date : string) : event → Prop :=
  | ev_get : unit_event a date (GetObject (in_bucket a) (in_key_of a date))
  | ev_partition k : unit_event a date (PutObject (out_bucket a) (out_key_of a k date))
  | ev_partition_failed k : unit_event a date (PutFailed (out_bucket a) (out_key_of a k date))
  | ev_marker : unit_event a date (PutObject (out_bucket a) (marker_key_of a date))
  | ev_marker_failed : unit_event a date (PutFailed (out_bucket a) (marker_key_of a date)).

(** A key the body of the loop can put for [date]. *)
Definition unit_key (a : args) (date : string) (bk : string * string) : Prop :=
  bk = (out_bucket a, marker_key_of a date)
  ∨ ∃ k, bk = (out_bucket a, out_key_of a k date).

(** [st'] holds the objects of [st], possibly replaced, and in addition
    only keys of the dates [ds]; its trace extends the one of [st] by
    events of those dates. *)
Definition extends_by (a : args) (ds : list string) (st st' : state) : Prop :=
  (∃ evs, trace st' = trace st ++ evs
          ∧ Forall (fun ev => ∃ d, d ∈ ds ∧ unit_event a d ev) evs)
  ∧ (∀ bk, is_Some (objects st !! bk) → is_Some (objects st' !! bk))
  ∧ (∀ bk, objects st' !! bk ≠ objects st !! bk → ∃ d, d ∈ ds ∧ unit_key a d bk).

Module NoKeyColumn.

(** A table without the key column and without rows. *)
Definition df : DataFrame :=
  {| nrows := 0; columns := [("qty", IntColumn [])] |}.

Definition before : state :=
  {| objects := {[ ("src", "in/20250101.parquet") := ParquetFile df ]};
     trace := [] |}.

(** A table without the key column, with one row. *)
Definition one_row : DataFrame :=
  {| nrows := 1; columns := [("qty", IntColumn [Some 4%Z])] |}.

Definition before_one_row : state :=
  {| objects := {[ ("src", "in/20250101.parquet") := ParquetFile one_row ]};
     trace := [] |}.

End NoKeyColumn.

Definition is_put (ev : event) : Prop :=
  match ev with
  | PutObject _ _ | PutFailed _ _ => True
  | _ => False
  end.

Definition event_bucket (ev : event) : string :=
  match ev with
  | ListObjects b _ | GetObject b _ | PutObject b _ | PutFailed b _ => b
  end.

Module OneBucket.

(** Input and output under two prefixes of one bucket. *)
Definition job : args :=
  {| kind := "demo"; in_bucket := "lake"; in_prefix := "in/";
     out_bucket := "lake"; out_prefix := "out/"; marker_prefix := "marker/" |}.

Definition before : state :=
  {| objects := {[ ("lake", "in/20250101.parquet") := ParquetFile Scenario.day1 ]};
     trace := [] |}.

End OneBucket.

Inductive char_class :=
  | Digit
  | Exactly (c : ascii).

Definition is_digit (c : ascii) : bool :=
  (48 <=? nat_of_ascii c)%nat && (nat_of_ascii c <=? 57)%nat.

(** A string fits a pattern when it has one character per class. *)
Fixpoint fits (p : list char_class) (s : string) : bool :=
  match p, s with
  | [], EmptyString => true
  | Digit :: p', String c s' => is_digit c && fits p' s'
  | Exactly x :: p', String c s' => Ascii.eqb x c && fits p' s'
  | _, _ => false
  end.

(** [YYYY-MM-DDTHH:MM:SSZ] *)
Definition iso_utc_seconds : list char_class :=
  [Digit; Digit; Digit; Digit; Exactly "-"; Digit; Digit; Exactly "-"; Digit; Digit;
   Exactly "T"; Digit; Digit; Exactly ":"; Digit; Digit; Exactly ":"; Digit; Digit;
   Exactly "Z"].



(** ** Configuration: [get_arg], lines 14-17 *)

(** What [get_arg] gives: a value, [None] for Python's [None], or the
    [IndexError] of [sys.argv[... + 1]]. *)
Inductive arg_result :=
  | ArgValue (v : option string)
  | ArgIndexError.

(** [sys.argv.index(x)]: the position of the first occurrence. *)
Definition index_of (x : string) (argv : list string) : option nat :=
  fst <$> list_find (fun y => y = x) argv.

(** [get_arg(name, default)] for the command line [argv] and the
    environment [environ]. *)
Definition get_arg (argv : list string) (environ : gmap string string)
    (name : string) (default : option string) : arg_result :=
  let flag := "--" +:+ name in
  if bool_decide (flag ∈ argv) then
    match index_of flag argv with
    | Some i =>
        match argv !! (i + 1)%nat with
        | Some v => ArgValue (Some v)
        | None => ArgIndexError
        end
    | None => ArgIndexError
    end
  else
    match environ !! name with
    | Some v => ArgValue (Some v)
    | None => ArgValue default
    end.

(** ** Paged listings, lines 50-56 *)

(** A page of [list_objects_v2]: the keys of its ["Contents"], which is
    absent when the page lists nothing. *)
Definition page : Type := option (list string).

(** [page.get("Contents", [])] *)
Definition contents (p : page) : list string := default [] p.

(** The two nested loops of lines 51-56 over the pages the paginator
    yields. *)
Definition keys_of_pages (suffix : string) (pages : list page) : list string :=
  foldl (fun keys p =>
           foldl (fun keys k => if endswith k suffix then keys ++ [k] else keys)
                 keys (contents p))
        [] pages.

(** The pages are a paging of the listing of [bucket] under [prefix]. *)
Definition paging_of (st : state) (bucket prefix : string) (pages : list page) : Prop :=
  concat (contents <$> pages)
  = filter (fun k => startswith k prefix) (bucket_keys st bucket).

(** The keys read, in the order of the reads. *)
Definition reads (evs : list event) : list (string * string) :=
  omap (fun ev => match ev with GetObject b k => Some (b, k) | _ => None end) evs.

(** An accepted put of a [.json] key. *)
Definition is_marker_put (ev : event) : bool :=
  match ev with
  | PutObject _ k => endswith k ".json"
  | _ => false
  end.

(** The number of markers put among some events. *)
Definition markers_put (evs : list event) : nat :=
  length (filter (fun ev => is_marker_put ev = true) evs).

(** ** Further cases the properties are tried on *)

Module Edge.

(** A command line that gives [--KIND] twice, and an environment. *)
Definition argv : list string := ["job.py"; "--KIND"; "sales"; "--KIND"; "other"].

Definition environ : gmap string string := {[ "KIND" := "from-env" ]}.

(** The listing of the scenario's input prefix in three pages, the second
    without ["Contents"]. *)
Definition pages : list page :=
  [Some ["in/20250101.parquet"]; None; Some ["in/20250108.parquet"]].

(** The put of the first marker is rejected. *)
Definition marker_down : world :=
  {| MAX_WORKERS := 24;
     put_fails := fun _ k => bool_decide (k = "marker/20250101.json");
     start_order := fun ts => ts;
     yield_order := reverse;
     gmtime := fun _ => Scenario.instant;
     start_order_perm := fun ts => Permutation_refl ts;
     yield_order_perm := reverse_Permutation;
     gmtime_in_range := fun _ => Scenario.instant_in_range |}.

(** [MAX_WORKERS=0] *)
Definition no_pool : world :=
  {| MAX_WORKERS := 0;
     put_fails := fun _ _ => false;
     start_order := fun ts => ts;
     yield_order := fun fs => fs;
     gmtime := fun _ => Scenario.instant;
     start_order_perm := fun ts => Permutation_refl ts;
     yield_order_perm := fun fs => Permutation_refl fs;
     gmtime_in_range := fun _ => Scenario.instant_in_range |}.

(** A JSON document where a Parquet file is expected. *)
Definition stray : marker_doc :=
  {| doc_kind := "demo"; doc_date := "20250101"; doc_input_key := "";
     doc_outputs := []; doc_output_count := 0; doc_generated_at := "" |}.

Definition garbled : state :=
  {| objects := {[ ("src", "in/20250101.parquet") := JsonFile stray ]};
     trace := [] |}.

(** Two rows, none with an [Item_ID]. *)
Definition keyless : DataFrame :=
  {| nrows := 2;
     columns := [("Item_ID", StrColumn [None; None]);
                 ("qty", IntColumn [Some 7; Some 9]%Z)] |}.

Definition before_keyless : state :=
  {| objects := {[ ("src", "in/20250101.parquet") := ParquetFile keyless ]};
     trace := [] |}.

(** The only input lies in a sub-folder of the input prefix. *)
Definition nested : state :=
  {| objects := {[ ("src", "in/2025/20250101.parquet") := ParquetFile Scenario.day1 ]};
     trace := [] |}.

End Edge.

(** * Part II: properties of the program *)

(** ** Facts about the string primitives *)

Local Arguments String.eqb : simpl never.
Local Arguments String.append !_ _ /.

Lemma endswith_app (p s : string) : endswith (p +:+ s) s = true.
Proof.
  induction p as [|c p IH]; simpl.
  - destruct s; simpl; by rewrite ?String.eqb_refl.
  - rewrite IH. apply orb_true_r.
Qed.

Lemma endswith_inv (s suffix : string) :
  endswith s suffix = true → ∃ p, s = p +:+ suffix.
Proof.
  induction s as [|c s IH].
  - simpl. rewrite orb_false_r. intros H%String.eqb_eq. exists "". by subst.
  - simpl. intros [H%String.eqb_eq | H]%orb_true_iff.
    + exists "". by subst.
    + destruct (IH H) as [p ->]. by exists (String c p).
Qed.

Lemma str_length_app (a b : string) :
  String.length (a +:+ b) = (String.length a + String.length b)%nat.
Proof. induction a; simpl; congruence. Qed.

Lemma substring_app_l (a b : string) :
  String.substring 0 (String.length a) (a +:+ b) = a.
Proof. induction a; simpl; [by destruct b | congruence]. Qed.

Lemma drop_end_app (p s : string) : drop_end (String.length s) (p +:+ s) = p.
Proof.
  unfold drop_end. rewrite str_length_app.
  replace (String.length p + String.length s - String.length s)%nat
    with (String.length p) by lia.
  apply substring_app_l.
Qed.

Lemma has_sep_app (a b : string) : has_sep (a +:+ b) = has_sep a || has_sep b.
Proof. induction a; simpl; [done | rewrite IHa; apply orb_assoc]. Qed.

Lemma has_sep_basename (k : string) : has_sep (basename k) = false.
Proof.
  induction k as [|c k IH]; simpl; [done |].
  destruct (has_sep k) eqn:Hk; [done |].
  destruct (Ascii.eqb c sep) eqn:Hc; [done |].
  simpl. by rewrite Hc, Hk.
Qed.

Lemma basename_no_sep (b : string) : has_sep b = false → basename b = b.
Proof.
  destruct b as [|c b]; simpl; [done |].
  intros [Hc Hb]%orb_false_iff. by rewrite Hb, Hc.
Qed.

Lemma basename_app_sep (p b : string) :
  has_sep b = false → basename (p +:+ String sep b) = b.
Proof.
  intros Hb. induction p as [|c p IH]; simpl.
  - by rewrite Hb.
  - rewrite has_sep_app. simpl. rewrite orb_true_r. simpl. exact IH.
Qed.

Lemma unit_id_has_no_sep suffix k u : unit_id suffix k = Some u → has_sep u = false.
Proof.
  unfold unit_id. destruct (endswith (basename k) suffix) eqn:He; [|done].
  intros [= <-]. destruct (endswith_inv _ _ He) as [p Hp].
  rewrite Hp, drop_end_app.
  pose proof (has_sep_basename k) as Hs. rewrite Hp, has_sep_app in Hs.
  by apply orb_false_iff in Hs as [? _].
Qed.

(** ** The key-set differ *)

Lemma extract_fold_elem (suffix : string) (keys : list string) (acc : gset string) (u : string) :
  u ∈ foldl (fun dates k =>
               let base := basename k in
               if endswith base suffix
               then dates ∪ {[ drop_end (String.length suffix) base ]}
               else dates) acc keys
  ↔ u ∈ acc ∨ ∃ k, k ∈ keys ∧ unit_id suffix k = Some u.
Proof.
  revert acc. induction keys as [|k keys IH]; intros acc; simpl.
  - split; [by left | intros [?|(k & Hk & _)]; [done | by apply elem_of_nil in Hk]].
  - rewrite IH. unfold unit_id at 2. split.
    + intros [Hu | (k' & Hk' & Hu)].
      * destruct (endswith (basename k) suffix) eqn:He.
        -- apply elem_of_union in Hu as [Hu | Hu%elem_of_singleton]; [by left|].
           right. exists k. split; [left|]. by rewrite He, Hu.
        -- by left.
      * right. exists k'. split; [by right | done].
    + intros [Hu | (k' & Hk' & Hu)].
      * left. destruct (endswith (basename k) suffix); set_solver.
      * apply elem_of_cons in Hk' as [-> | Hk'].
        -- left. destruct (endswith (basename k) suffix); [|done].
           injection Hu as <-. set_solver.
        -- right. by exists k'.
Qed.

Lemma elem_of_extract_dates_from_keys keys u :
  u ∈ extract_dates_from_keys keys ↔ ∃ k, k ∈ keys ∧ unit_id ".parquet" k = Some u.
Proof.
  unfold extract_dates_from_keys.
  rewrite (extract_fold_elem ".parquet"). set_solver.
Qed.

Lemma elem_of_extract_dates_from_marker_keys keys u :
  u ∈ extract_dates_from_marker_keys keys ↔ ∃ k, k ∈ keys ∧ unit_id ".json" k = Some u.
Proof.
  unfold extract_dates_from_marker_keys.
  rewrite (extract_fold_elem ".json"). set_solver.
Qed.


Lemma elem_of_sorted (s : gset string) u : u ∈ sorted s ↔ u ∈ s.
Proof. unfold sorted. by rewrite merge_sort_Permutation, elem_of_elements. Qed.

Lemma NoDup_sorted (s : gset string) : NoDup (sorted s).
Proof. unfold sorted. rewrite merge_sort_Permutation. apply NoDup_elements. Qed.

Lemma StronglySorted_strict (l : list string) :
  StronglySorted String.le l → NoDup l → StronglySorted str_lt l.
Proof.
  induction 1 as [|x l Hl IH Hx]; intros Hnd; constructor.
  - apply IH. by apply NoDup_cons in Hnd as [_ ?].
  - apply NoDup_cons in Hnd as [Hx' _].
    apply Forall_forall. intros y Hy. split.
    + by eapply Forall_forall in Hx.
    + intros ->. done.
Qed.

Lemma sorted_ascending (s : gset string) : StronglySorted str_lt (sorted s).
Proof.
  apply StronglySorted_strict; [|apply NoDup_sorted].
  unfold sorted. apply StronglySorted_merge_sort; apply _.
Qed.


(** ** The partitioner: [df.groupby("Item_ID")] *)

Section grouping.
Context {K : Type} `{EqDecision K}.
Variable key : nat → option K.

Lemma filter_split_key (k : K) (ks : list K) (l : list nat) :
  k ∉ ks →
  filter (fun i => key i = Some k) l ++ filter (keyed_in key ks) l
  ≡ₚ filter (keyed_in key (k :: ks)) l.
Proof.
  intros Hk. induction l as [|i l IH]; [done |].
  destruct (decide (key i = Some k)) as [Hi | Hi].
  - rewrite (filter_cons_True (fun i => key i = Some k)) by done.
    rewrite (filter_cons_False (keyed_in key ks)).
    2:{ intros (k' & Hk' & Hi'). congruence. }
    rewrite (filter_cons_True (keyed_in key (k :: ks))).
    2:{ exists k. split; [left | done]. }
    simpl. by rewrite IH.
  - rewrite (filter_cons_False (fun i => key i = Some k)) by done.
    destruct (decide (keyed_in key ks i)) as [Hin | Hin].
    + rewrite (filter_cons_True (keyed_in key ks)) by done.
      rewrite (filter_cons_True (keyed_in key (k :: ks))).
      2:{ destruct Hin as (k' & ? & ?). exists k'. split; [by right | done]. }
      rewrite <- Permutation_middle. by rewrite IH.
    + rewrite (filter_cons_False (keyed_in key ks)) by done.
      rewrite (filter_cons_False (keyed_in key (k :: ks))); [done |].
      intros (k' & [-> | Hk']%elem_of_cons & Hi'); [done |].
      apply Hin. by exists k'.
Qed.

Lemma concat_groups (ks : list K) (l : list nat) :
  NoDup ks →
  concat ((fun k => filter (fun i => key i = Some k) l) <$> ks)
  ≡ₚ filter (keyed_in key ks) l.
Proof.
  induction 1 as [|k ks Hk Hnd IH]; simpl.
  - induction l as [|i l IHl]; [done |].
    rewrite filter_cons_False; [done |].
    intros (k & Hk & _). by apply elem_of_nil in Hk.
  - rewrite IH. by apply filter_split_key.
Qed.

Lemma keyed_in_all (ks : list K) (l : list nat) :
  (∀ i k, i ∈ l → key i = Some k → k ∈ ks) →
  filter (keyed_in key ks) l = filter (fun i => is_Some (key i)) l.
Proof.
  intros Hall. induction l as [|i l IH]; [done |].
  assert (Hl : ∀ j k, j ∈ l → key j = Some k → k ∈ ks).
  { intros j k Hj. apply Hall. by right. }
  destruct (key i) as [k|] eqn:Hi.
  - rewrite !filter_cons_True; [by rewrite IH | by rewrite Hi |].
    exists k. split; [|done]. apply (Hall i); [left | done].
  - rewrite !filter_cons_False; [by apply IH | |].
    + rewrite Hi. by intros [? [=]].
    + intros (k & _ & Hk). congruence.
Qed.
End grouping.

(** The group keys: the distinct values present in the column. *)
Lemma group_keys (name : string) (df : DataFrame) :
  (group_positions name df).*1
  = merge_sort scalar_le (remove_dups (omap (key_at name df) (seq 0 (nrows df)))).
Proof.
  unfold group_positions. rewrite <- list_fmap_compose.
  rewrite <- (list_fmap_id (merge_sort _ _)) at 2. by apply list_fmap_ext.
Qed.

Lemma elem_of_group_keys name df k :
  k ∈ (group_positions name df).*1 ↔ ∃ i, (i < nrows df)%nat ∧ key_at name df i = Some k.
Proof.
  rewrite group_keys, merge_sort_Permutation, elem_of_remove_dups, list_elem_of_omap.
  split; intros (i & Hi & Hk); exists i; (split; [|done]).
  - apply elem_of_seq in Hi. lia.
  - apply elem_of_seq. lia.
Qed.

Lemma NoDup_group_keys name df : NoDup (group_positions name df).*1.
Proof. rewrite group_keys, merge_sort_Permutation. apply NoDup_remove_dups. Qed.

Lemma group_positions_length name df :
  length (group_positions name df) = nunique name df.
Proof.
  rewrite <- (length_fmap fst), group_keys. unfold nunique.
  by rewrite merge_sort_Permutation.
Qed.

Lemma group_positions_rows name df :
  concat (group_positions name df).*2
  ≡ₚ filter (fun i => is_Some (key_at name df i)) (seq 0 (nrows df)).
Proof.
  unfold group_positions. rewrite <- list_fmap_compose.
  unfold compose. simpl. rewrite concat_groups.
  - apply reflexive_eq, keyed_in_all. intros i k Hi Hk.
    rewrite merge_sort_Permutation, elem_of_remove_dups, list_elem_of_omap. eauto.
  - rewrite merge_sort_Permutation. apply NoDup_remove_dups.
Qed.

Lemma elem_of_group_positions name df k idxs :
  (k, idxs) ∈ group_positions name df →
  idxs = filter (fun i => key_at name df i = Some k) (seq 0 (nrows df))
  ∧ ∃ i, i ∈ idxs.
Proof.
  intros Hin. assert (Hk : k ∈ (group_positions name df).*1).
  { apply list_elem_of_fmap. by exists (k, idxs). }
  unfold group_positions in Hin. apply list_elem_of_fmap in Hin as (k' & [= -> ->] & _).
  split; [done |].
  apply elem_of_group_keys in Hk as (i & Hi & Hk). exists i.
  apply list_elem_of_filter. split; [done |]. apply elem_of_seq. lia.
Qed.

(** C2, as stated, fails: a row whose [Item_ID] is missing is in no
    partition. *)
Lemma C2_null_row_is_in_no_partition :
  empty NullKey.df = false ∧ has_column "Item_ID" NullKey.df = true
  ∧ group_positions "Item_ID" NullKey.df = [(Str "A", [0%nat])]
  ∧ ¬ partitions_recover_table NullKey.df.
Proof.
  split; [done | split; [done | split; [by vm_compute |]]].
  unfold partitions_recover_table. intros Hp%Permutation_length.
  vm_compute in Hp. discriminate.
Qed.

(** C2, amended: the partitions that [groupby] emits are disjoint and
    together hold exactly once every row whose [Item_ID] is present; the
    group keys are distinct, every group is non-empty and holds the rows
    carrying its key, and the emitted sub-table is made of those rows. *)
Theorem C2_partitions_cover_keyed_rows (df : DataFrame) :
  concat (group_positions "Item_ID" df).*2
    ≡ₚ filter (fun i => is_Some (key_at "Item_ID" df i)) (seq 0 (nrows df))
  ∧ NoDup (concat (group_positions "Item_ID" df).*2)
  ∧ NoDup (group_positions "Item_ID" df).*1
  ∧ (∀ k idxs, (k, idxs) ∈ group_positions "Item_ID" df →
       idxs ≠ []
       ∧ ∀ i, i ∈ idxs ↔ (i < nrows df)%nat ∧ key_at "Item_ID" df i = Some k)
  ∧ groupby "Item_ID" df
    = (fun g : scalar * list nat => (g.1, take g.2 df)) <$> group_positions "Item_ID" df.
Proof.
  split; [apply group_positions_rows | split; [|split; [|split]]].
  - rewrite group_positions_rows. apply NoDup_filter, NoDup_seq.
  - apply NoDup_group_keys.
  - intros k idxs [-> [i Hi]]%elem_of_group_positions. split.
    + intros Hnil. rewrite Hnil in Hi. by apply elem_of_nil in Hi.
    + intros j. rewrite list_elem_of_filter, elem_of_seq. split; intros [? ?]; split; auto; lia.
  - unfold groupby. apply list_fmap_ext. by intros ? [k idxs] ?.
Qed.

(** ** The write phase of one unit *)

Lemma run_tasks_spec (w : world) (ts : list task) (st : state) :
  run_tasks w st ts
  = ({| objects := written w ts (objects st);
        trace := trace st ++ (task_event w <$> ts) |},
     task_result w <$> ts).
Proof.
  revert st. induction ts as [|[[df b] k] ts IH]; intros st; simpl.
  - rewrite app_nil_r. by destruct st.
  - unfold put_object, task_event, task_result. simpl.
    destruct (put_fails w b k) eqn:Hf; simpl; rewrite IH; simpl;
      by rewrite <- app_assoc.
Qed.

Lemma collect_ok (b : string) (ks : list string) (acc : list string) :
  collect b (Ok <$> ks) acc = Ok (acc ++ (s3_uri b <$> ks)).
Proof.
  revert acc. induction ks as [|k ks IH]; intros acc; simpl.
  - by rewrite app_nil_r.
  - rewrite IH. by rewrite <- app_assoc.
Qed.

Lemma collect_raise (b : string) (ks : list string) (e : exn)
    (post : list (result string)) (acc : list string) :
  collect b ((Ok <$> ks) ++ Raise e :: post) acc = Raise e.
Proof. revert acc. induction ks as [|k ks IH]; intros acc; simpl; [done | apply IH]. Qed.

(** Futures split at the first one that holds an exception. *)
Lemma futures_split (fs : list (result string)) :
  (∃ ks, fs = Ok <$> ks) ∨ (∃ ks e post, fs = (Ok <$> ks) ++ Raise e :: post).
Proof.
  induction fs as [|[k|e] fs IH].
  - left. by exists [].
  - destruct IH as [[ks ->] | (ks & e & post & ->)].
    + left. by exists (k :: ks).
    + right. by exists (k :: ks), e, post.
  - right. by exists [], e, fs.
Qed.

Lemma task_result_ok_inv (w : world) (ts : list task) (ks : list string) :
  task_result w <$> ts = Ok <$> ks →
  ks = (fun t : task => t.2) <$> ts ∧ Forall (fun t => put_fails w t.1.2 t.2 = false) ts.
Proof.
  revert ks. induction ts as [|t ts IH]; intros [|k ks]; simpl; try done.
  unfold task_result at 1. destruct (put_fails w t.1.2 t.2) eqn:Hf; [done |].
  intros [= <- Hks]. destruct (IH _ Hks) as [-> ?]. by split; [|constructor].
Qed.

Lemma all_ok_fmap (fs : list (result string)) : Forall is_ok fs → fs = Ok <$> ok_keys fs.
Proof.
  induction 1 as [|[k|e] fs Hk _ IH]; [done | | done].
  change (ok_keys (Ok k :: fs)) with (k :: ok_keys fs).
  rewrite fmap_cons. by f_equal.
Qed.

Lemma ok_keys_fmap_Ok (ks : list string) : ok_keys (Ok <$> ks) = ks.
Proof.
  induction ks as [|k ks IH]; [done |].
  change (ok_keys (Ok <$> k :: ks)) with (k :: ok_keys (Ok <$> ks)). by f_equal.
Qed.

Lemma task_result_all_ok (w : world) (ts : list task) :
  Forall (fun t => put_fails w t.1.2 t.2 = false) ts →
  task_result w <$> ts = Ok <$> ((fun t : task => t.2) <$> ts).
Proof.
  induction 1 as [|t ts Ht _ IH]; [done |].
  rewrite !fmap_cons, IH. unfold task_result. by rewrite Ht.
Qed.

Lemma task_result_some_fail (w : world) (ts : list task) (t : task) :
  t ∈ ts → put_fails w t.1.2 t.2 = true → ¬ Forall is_ok (task_result w <$> ts).
Proof.
  intros Ht Hf Hall. rewrite Forall_fmap in Hall.
  eapply Forall_forall in Hall; [|exact Ht].
  simpl in Hall. unfold task_result in Hall. by rewrite Hf in Hall.
Qed.

Lemma process_date_write_phase w a st date df :
  splittable w a st date df →
  process_date w a st date
  = match collect (out_bucket a) (yielded w a date df) [] with
    | Raise e => (after_writes w a st date df, Raise e)
    | Ok outputs_written =>
        match put_json w (after_writes w a st date df) (out_bucket a) (marker_key_of a date)
                (marker_doc_of w a (after_writes w a st date df) date outputs_written) with
        | (st3, Raise e) => (st3, Raise e)
        | (st3, Ok _) => (st3, Ok Marked)
        end
    end.
Proof.
  intros (Hobj & Hne & Hcol & Hmw). unfold process_date, read_parquet_s3.
  rewrite Hobj, Hne, Hcol. simpl.
  rewrite bool_decide_eq_false_2 by lia.
  rewrite run_tasks_spec. simpl. unfold yielded, after_writes.
  by rewrite <- app_assoc.
Qed.

(** The unit goes through when none of its puts is rejected. *)
Lemma process_date_marked w a st date df :
  splittable w a st date df →
  Forall (fun t : task => put_fails w t.1.2 t.2 = false) (submitted a date df) →
  put_fails w (out_bucket a) (marker_key_of a date) = false →
  process_date w a st date
  = (store (out_bucket a) (marker_key_of a date)
       (JsonFile (marker_doc_of w a (after_writes w a st date df) date
                    (s3_uri (out_bucket a) <$> ok_keys (yielded w a date df))))
       (after_writes w a st date df),
     Ok Marked)
  ∧ ok_keys (yielded w a date df) ≡ₚ (fun t : task => t.2) <$> submitted a date df.
Proof.
  intros Hs Hall Hm.
  assert (Hts : Forall (fun t : task => put_fails w t.1.2 t.2 = false)
                  (start_order w (submitted a date df))).
  { by rewrite start_order_perm. }
  assert (Hy : Forall is_ok (yielded w a date df)).
  { unfold yielded. rewrite yield_order_perm, (task_result_all_ok _ _ Hts).
    rewrite Forall_fmap. by apply Forall_true. }
  split.
  - rewrite (process_date_write_phase _ _ _ _ _ Hs).
    rewrite (all_ok_fmap _ Hy) at 1. rewrite collect_ok. simpl.
    unfold put_json, put_object. by rewrite Hm.
  - unfold yielded, ok_keys. rewrite yield_order_perm, (task_result_all_ok _ _ Hts).
    fold (ok_keys (Ok <$> ((fun t : task => t.2) <$> start_order w (submitted a date df)))).
    by rewrite ok_keys_fmap_Ok, start_order_perm.
Qed.

(** ** Keys of different roles never coincide *)

Lemma str_app_assoc (a b c : string) : (a +:+ b) +:+ c = a +:+ b +:+ c.
Proof. induction a; simpl; congruence. Qed.

Lemma last_char_app (s : string) (c : ascii) (t : string) :
  last_char (s +:+ String c t) = last_char (String c t).
Proof.
  induction s as [|x s IH]; [done |].
  simpl in *. rewrite IH. by destruct s.
Qed.

Lemma parquet_is_not_json (p q : string) : p +:+ ".parquet" ≠ q +:+ ".json".
Proof. intros H%(f_equal last_char). by rewrite !last_char_app in H. Qed.

Lemma out_key_is_not_marker_key a k d d' : out_key_of a k d ≠ marker_key_of a d'.
Proof.
  unfold out_key_of, marker_key_of.
  rewrite <- !str_app_assoc. apply parquet_is_not_json.
Qed.

Lemma in_key_is_not_marker_key a d d' : in_key_of a d ≠ marker_key_of a d'.
Proof.
  unfold in_key_of, marker_key_of.
  rewrite <- !str_app_assoc. apply parquet_is_not_json.
Qed.

Lemma marker_key_inj a : Inj (=) (=) (marker_key_of a).
Proof.
  intros d d' H. unfold marker_key_of in H.
  apply (inj (String.app _)) in H.
  apply (f_equal (drop_end (String.length ".json"))) in H.
  by rewrite !drop_end_app in H.
Qed.


Lemma elem_of_submitted a date df (t : task) :
  t ∈ submitted a date df ↔
  ∃ k idxs, (k, idxs) ∈ group_positions "Item_ID" df
            ∧ t = (take idxs df, out_bucket a, out_key_of a k date).
Proof.
  unfold submitted, groupby. rewrite <- list_fmap_compose, list_elem_of_fmap. split.
  - intros ([k idxs] & -> & Hin). by exists k, idxs.
  - intros (k & idxs & Hin & ->). by exists (k, idxs).
Qed.

Lemma written_lookup_other (w : world) (ts : list task)
    (m : gmap (string * string) object) (bk : string * string) :
  (∀ t : task, t ∈ ts → (t.1.2, t.2) ≠ bk) → written w ts m !! bk = m !! bk.
Proof.
  revert m. induction ts as [|t ts IH]; intros m Hne; [done |]. simpl.
  rewrite IH by (intros t' Ht'; apply Hne; by right).
  destruct (put_fails w t.1.2 t.2); [done |].
  apply lookup_insert_ne, Hne. by left.
Qed.

Lemma written_lookup_landed (w : world) (ts : list task)
    (m : gmap (string * string) object) (t : task) :
  t ∈ ts → put_fails w t.1.2 t.2 = false →
  ∃ t' : task, t' ∈ ts ∧ (t'.1.2, t'.2) = (t.1.2, t.2)
               ∧ written w ts m !! (t.1.2, t.2) = Some (ParquetFile t'.1.1).
Proof.
  revert m. induction ts as [|x ts IH] using rev_ind; intros m Ht Hf.
  - by apply elem_of_nil in Ht.
  - unfold written. rewrite foldl_app. simpl. fold (written w ts m).
    destruct (decide ((x.1.2, x.2) = (t.1.2, t.2))) as [Heq | Hne].
    + exists x. split; [apply elem_of_app; right; by left |]. split; [done |].
      injection Heq as Hb Hk. rewrite Hb, Hk, Hf. by rewrite lookup_insert_eq.
    + apply elem_of_app in Ht as [Ht | Ht%list_elem_of_singleton]; [|by subst].
      destruct (IH m Ht Hf) as (t' & Ht' & Hk' & Hl).
      exists t'. split; [apply elem_of_app; by left |]. split; [done |].
      destruct (put_fails w x.1.2 x.2); [done |]. by rewrite lookup_insert_ne.
Qed.

(** ** The loop over the outstanding dates *)

Lemma process_kind_unfold w raw st :
  process_kind w raw st
  = finish (normalized raw) st
      (for_dates w (normalized raw) (listed (normalized raw) st) 0
         (outstanding (normalized raw) st)).
Proof.
  unfold process_kind, finish, outstanding, input_dates_in, done_dates_in, listed.
  simpl. by destruct (for_dates _ _ _ _ _) as [st3 [n|e]].
Qed.

Lemma for_dates_app w a st n ds1 ds2 :
  for_dates w a st n (ds1 ++ ds2)
  = match for_dates w a st n ds1 with
    | (st1, Ok n1) => for_dates w a st1 n1 ds2
    | (st1, Raise e) => (st1, Raise e)
    end.
Proof.
  revert st n. induction ds1 as [|d ds1 IH]; intros st n; simpl.
  - by destruct (for_dates w a st n ds2) as [? [?|?]].
  - destruct (process_date w a st d) as [st' [[| |]|e]]; by rewrite ?IH.
Qed.

Lemma process_kind_reaches w raw st0 before date rest st n :
  reaches w raw st0 before date rest st n →
  process_kind w raw st0
  = finish (normalized raw) st0 (for_dates w (normalized raw) st n (date :: rest)).
Proof.
  intros [Hout Hfor]. rewrite process_kind_unfold, Hout, for_dates_app. by rewrite Hfor.
Qed.

Lemma submitted_key_is_out_key a date df (t : task) :
  t ∈ submitted a date df → t.1.2 = out_bucket a ∧ ∃ k, t.2 = out_key_of a k date.
Proof. intros (k & idxs & _ & ->)%elem_of_submitted. split; [done | by exists k]. Qed.

Lemma partition_events_spare_marker w a date df d' :
  PutObject (out_bucket a) (marker_key_of a d')
  ∉ (GetObject (in_bucket a) (in_key_of a date)
       :: (task_event w <$> start_order w (submitted a date df))).
Proof.
  intros [[=] | Hin]%elem_of_cons.
  apply list_elem_of_fmap in Hin as (t & Hev & Ht).
  rewrite start_order_perm in Ht.
  apply submitted_key_is_out_key in Ht as [Hb [k Hk]].
  unfold task_event in Hev. rewrite Hk in Hev.
  destruct (put_fails w _ _); [done |].
  injection Hev as _ Hkey. symmetry in Hkey. by apply out_key_is_not_marker_key in Hkey.
Qed.

Lemma after_writes_spares_marker w a st date df d' :
  objects (after_writes w a st date df) !! (out_bucket a, marker_key_of a d')
  = objects st !! (out_bucket a, marker_key_of a d').
Proof.
  simpl. apply written_lookup_other. intros t Ht.
  rewrite start_order_perm in Ht.
  apply submitted_key_is_out_key in Ht as [_ [k Hk]].
  rewrite Hk. intros [= _ Hkey]. by apply out_key_is_not_marker_key in Hkey.
Qed.

Lemma for_dates_raise w a st n date rest st' e :
  process_date w a st date = (st', Raise e) →
  for_dates w a st n (date :: rest) = (st', Raise e).
Proof. intros H. simpl. by rewrite H. Qed.

(** C3: when the put of one partition of a unit is rejected, the run of
    [process_kind] ends with the exception of the first future that
    [as_completed] yields with a failure; the state it leaves is the one
    reached when the pool had carried out every submitted write, so no
    marker was put for the unit, no later date was touched, and the writes
    of the sibling partitions that the store accepted are in the store. *)
Theorem C3_failed_write_aborts_run (w : world) (raw : args) (st0 : state)
    (before : list string) (date : string) (rest : list string) (st : state)
    (n : nat) (df : DataFrame) (t : task) :
  reaches w raw st0 before date rest st n →
  splittable w (normalized raw) st date df →
  t ∈ submitted (normalized raw) date df →
  put_fails w t.1.2 t.2 = true →
  ∃ (ks : list string) (e : exn) (post : list (result string)) (st' : state),
    yielded w (normalized raw) date df = (Ok <$> ks) ++ Raise e :: post
    ∧ (∃ t' : task, t' ∈ submitted (normalized raw) date df
                    ∧ put_fails w t'.1.2 t'.2 = true ∧ e = PutError t'.1.2 t'.2)
    ∧ process_kind w raw st0 = (st', Raise e)
    ∧ trace st' = trace st ++ GetObject (in_bucket raw) (in_key_of (normalized raw) date)
                    :: (task_event w <$> start_order w (submitted (normalized raw) date df))
    ∧ (PutObject (out_bucket raw) (marker_key_of (normalized raw) date)
        ∉ (GetObject (in_bucket raw) (in_key_of (normalized raw) date)
             :: (task_event w <$> start_order w (submitted (normalized raw) date df))))
    ∧ objects st' !! (out_bucket raw, marker_key_of (normalized raw) date)
      = objects st !! (out_bucket raw, marker_key_of (normalized raw) date)
    ∧ task_event w <$> start_order w (submitted (normalized raw) date df)
        ≡ₚ task_event w <$> submitted (normalized raw) date df
    ∧ (∀ t' : task, t' ∈ submitted (normalized raw) date df →
         put_fails w t'.1.2 t'.2 = false →
         ∃ sub, objects st' !! (t'.1.2, t'.2) = Some (ParquetFile sub)).
Proof.
  set (a := normalized raw). intros Hreach Hs Ht Hf.
  assert (Hbad : ¬ Forall is_ok (yielded w a date df)).
  { unfold yielded. rewrite yield_order_perm.
    apply (task_result_some_fail w _ t); [by rewrite start_order_perm | done]. }
  destruct (futures_split (yielded w a date df)) as [[ks Hy] | (ks & e & post & Hy)].
  { destruct Hbad. rewrite Hy, Forall_fmap. by apply Forall_true. }
  exists ks, e, post, (after_writes w a st date df).
  split; [done |]. split; [|split; [|split; [|split; [|split; [|split]]]]].
  - assert (He : Raise e ∈ yielded w a date df).
    { rewrite Hy. apply elem_of_app. right. by left. }
    unfold yielded in He. rewrite yield_order_perm in He.
    apply list_elem_of_fmap in He as (t' & He & Ht').
    rewrite start_order_perm in Ht'. exists t'. split; [done |].
    unfold task_result in He. destruct (put_fails w t'.1.2 t'.2); [|done].
    split; [done | congruence].
  - rewrite (process_kind_reaches _ _ _ _ _ _ _ _ Hreach). fold a.
    rewrite (for_dates_raise w a st n date rest (after_writes w a st date df) e); [done |].
    rewrite (process_date_write_phase _ _ _ _ _ Hs).
    by rewrite Hy, collect_raise.
  - done.
  - apply (partition_events_spare_marker w a).
  - apply (after_writes_spares_marker w a).
  - by rewrite start_order_perm.
  - intros t' Ht' Hf'.
    destruct (written_lookup_landed w (start_order w (submitted a date df))
                (objects st) t') as (t'' & _ & _ & Hl); [by rewrite start_order_perm | done |].
    by exists t''.1.1.
Qed.

(** ** The state machine of one unit *)

Lemma task_result_ok_no_fail (w : world) (ts : list task) :
  Forall is_ok (task_result w <$> ts) →
  Forall (fun t : task => put_fails w t.1.2 t.2 = false) ts.
Proof.
  rewrite Forall_fmap. intros Hall. eapply Forall_impl; [exact Hall |].
  intros t. simpl. unfold task_result.
  by destruct (put_fails w t.1.2 t.2).
Qed.

Lemma yielded_all_ok w a date df ks :
  yielded w a date df = Ok <$> ks →
  Forall (fun t : task => put_fails w t.1.2 t.2 = false) (submitted a date df).
Proof.
  intros Hy. rewrite <- (start_order_perm w). apply task_result_ok_no_fail.
  rewrite <- (yield_order_perm w). fold (yielded w a date df).
  rewrite Hy, Forall_fmap. by apply Forall_true.
Qed.

(** [process_date] takes exactly one of the transitions. *)
Lemma process_date_run w a st date :
  unit_run w a st date (process_date w a st date).1 (process_date w a st date).2.
Proof.
  destruct (objects st !! (in_bucket a, in_key_of a date)) as [[df|doc]|] eqn:Hobj.
  2:{ unfold process_date, read_parquet_s3. rewrite Hobj. simpl. by eapply run_undecodable. }
  2:{ unfold process_date, read_parquet_s3. rewrite Hobj. simpl. by apply run_missing. }
  destruct (empty df) eqn:Hne.
  { unfold process_date, read_parquet_s3. rewrite Hobj, Hne. simpl. by eapply run_empty. }
  destruct (has_column "Item_ID" df) eqn:Hcol.
  2:{ unfold process_date, read_parquet_s3. rewrite Hobj, Hne, Hcol. simpl.
      by eapply run_no_key_column. }
  destruct (decide (MAX_WORKERS w ≤ 0)%Z) as [Hmw | Hmw].
  { unfold process_date, read_parquet_s3. rewrite Hobj, Hne, Hcol. simpl.
    rewrite bool_decide_eq_true_2 by done. simpl. by eapply run_no_pool. }
  assert (Hs : splittable w a st date df) by (repeat split; [done.. | lia]).
  destruct (futures_split (yielded w a date df)) as [[ks Hy] | (ks & e & post & Hy)].
  - pose proof (yielded_all_ok _ _ _ _ _ Hy) as Hall.
    destruct (put_fails w (out_bucket a) (marker_key_of a date)) eqn:Hm.
    + rewrite (process_date_write_phase _ _ _ _ _ Hs), Hy, collect_ok. simpl.
      unfold put_json, put_object. rewrite Hm. simpl. by eapply run_marker_failed.
    + destruct (process_date_marked w a st date df Hs Hall Hm) as [-> _]. simpl.
      by apply run_marked.
  - rewrite (process_date_write_phase _ _ _ _ _ Hs), Hy, collect_raise. simpl.
    by eapply run_write_failed.
Qed.

(** ** What one unit may do to the store *)

Lemma extends_by_refl a ds st : extends_by a ds st st.
Proof.
  split; [|split]; [|done..].
  exists []. by rewrite app_nil_r.
Qed.

Lemma extends_by_trans a ds1 ds2 st1 st2 st3 :
  extends_by a ds1 st1 st2 → extends_by a ds2 st2 st3 →
  extends_by a (ds1 ++ ds2) st1 st3.
Proof.
  intros ((e1 & Ht1 & He1) & Hk1 & Hn1) ((e2 & Ht2 & He2) & Hk2 & Hn2).
  split; [|split].
  - exists (e1 ++ e2). split; [by rewrite Ht2, Ht1, app_assoc |].
    apply Forall_app. split; (eapply Forall_impl; [eassumption |]);
      intros ev (d & Hd & Hev); exists d; (split; [|done]);
      apply elem_of_app; auto.
  - intros bk H. by apply Hk2, Hk1.
  - intros bk Hne.
    destruct (decide (objects st3 !! bk = objects st2 !! bk)) as [Heq | Hne2].
    + rewrite Heq in Hne. destruct (Hn1 _ Hne) as (d & Hd & Hu).
      exists d. split; [apply elem_of_app; by left | done].
    + destruct (Hn2 _ Hne2) as (d & Hd & Hu).
      exists d. split; [apply elem_of_app; by right | done].
Qed.

Lemma extends_by_log a d ev st :
  unit_event a d ev → extends_by a [d] st (log ev st).
Proof.
  intros Hev. split; [|split]; [|done..].
  exists [ev]. split; [done |]. constructor; [|done].
  exists d. split; [by left | done].
Qed.

Lemma written_lookup_is_Some w ts m bk :
  is_Some (m !! bk) → is_Some (written w ts m !! bk).
Proof.
  revert m. induction ts as [|t ts IH]; intros m Hm; [done |]. simpl. apply IH.
  destruct (put_fails w t.1.2 t.2); [done |].
  rewrite lookup_insert_is_Some. destruct (decide ((t.1.2, t.2) = bk)); auto.
Qed.

Lemma written_lookup_changed w ts m bk :
  written w ts m !! bk ≠ m !! bk → ∃ t : task, t ∈ ts ∧ bk = (t.1.2, t.2).
Proof.
  intros Hne. destruct (decide (Exists (fun t : task => (t.1.2, t.2) = bk) ts)) as [He | He].
  - apply Exists_exists in He as (t & Ht & <-). by exists t.
  - destruct Hne. apply written_lookup_other. intros t Ht Heq.
    apply He, Exists_exists. by exists t.
Qed.

Lemma extends_by_after_writes w a st date df :
  extends_by a [date] st (after_writes w a st date df).
Proof.
  split; [|split].
  - eexists. split; [done |]. constructor.
    + exists date. split; [by left | constructor].
    + apply Forall_fmap, Forall_forall. intros t Ht. rewrite start_order_perm in Ht.
      apply submitted_key_is_out_key in Ht as [Hb [k Hk]].
      exists date. split; [by left |]. simpl. unfold task_event. rewrite Hb, Hk.
      destruct (put_fails w _ _); constructor.
  - intros bk. apply written_lookup_is_Some.
  - intros bk (t & Ht & ->)%written_lookup_changed. rewrite start_order_perm in Ht.
    apply submitted_key_is_out_key in Ht as [Hb [k Hk]].
    exists date. split; [by left |]. right. exists k. by rewrite Hb, Hk.
Qed.

Lemma extends_by_store_marker a date doc st :
  extends_by a [date] st (store (out_bucket a) (marker_key_of a date) doc st).
Proof.
  split; [|split].
  - exists [PutObject (out_bucket a) (marker_key_of a date)]. split; [done |].
    constructor; [|done]. exists date. split; [by left | constructor].
  - intros bk H. simpl. rewrite lookup_insert_is_Some.
    destruct (decide ((out_bucket a, marker_key_of a date) = bk)); auto.
  - intros bk Hne. exists date. split; [by left |]. left.
    destruct (decide ((out_bucket a, marker_key_of a date) = bk)) as [<- | Hd]; [done |].
    destruct Hne. simpl. by rewrite lookup_insert_ne.
Qed.

Lemma extends_by_same_date a d st1 st2 st3 :
  extends_by a [d] st1 st2 → extends_by a [d] st2 st3 → extends_by a [d] st1 st3.
Proof.
  intros H1 H2. destruct (extends_by_trans _ _ _ _ _ _ H1 H2) as ((evs & Ht & He) & Hk & Hn).
  split; [|split]; [|done|].
  - exists evs. split; [done |]. eapply Forall_impl; [exact He |].
    intros ev (d' & Hd' & Hev). exists d'. split; [|done]. set_solver.
  - intros bk Hne. destruct (Hn bk Hne) as (d' & Hd' & Hu). exists d'. split; [|done].
    set_solver.
Qed.

Lemma unit_run_extends w a st date st' r :
  unit_run w a st date st' r → extends_by a [date] st st'.
Proof.
  destruct 1; try (apply extends_by_log; constructor).
  - apply extends_by_after_writes.
  - eapply extends_by_same_date; [apply extends_by_after_writes |].
    apply extends_by_log. constructor.
  - eapply extends_by_same_date; [apply extends_by_after_writes |].
    apply extends_by_store_marker.
Qed.

Lemma process_date_extends w a st date :
  extends_by a [date] st (process_date w a st date).1.
Proof. eapply unit_run_extends, process_date_run. Qed.

Lemma for_dates_extends w a st n ds :
  extends_by a ds st (for_dates w a st n ds).1.
Proof.
  revert st n. induction ds as [|d ds IH]; intros st n; simpl.
  - apply extends_by_refl.
  - pose proof (process_date_extends w a st d) as Hd.
    destruct (process_date w a st d) as [st' [[| |]|e]]; simpl in *.
    + apply (extends_by_trans a [d] ds _ _ _ Hd), IH.
    + apply (extends_by_trans a [d] ds _ _ _ Hd), IH.
    + apply (extends_by_trans a [d] ds _ _ _ Hd), IH.
    + apply (extends_by_trans a [d] ds _ _ _ Hd), extends_by_refl.
Qed.

Lemma finish_state a st0 r : (finish a st0 r).1 = r.1.
Proof. by destruct r as [st [n|e]]. Qed.

Lemma process_kind_state w raw st :
  (process_kind w raw st).1
  = (for_dates w (normalized raw) (listed (normalized raw) st) 0
       (outstanding (normalized raw) st)).1.
Proof. by rewrite process_kind_unfold, finish_state. Qed.

Lemma for_dates_skip w a st n date rest st' o :
  process_date w a st date = (st', Ok o) → o ≠ Marked →
  for_dates w a st n (date :: rest) = for_dates w a st' n rest.
Proof. intros H Ho. simpl. rewrite H. by destruct o. Qed.

(** ** Skipped units and the schema check *)

(** C6: a unit whose input object is absent when it is read, or decodes
    to a table without rows, is skipped: the body of the loop only reads,
    the store is left as it was, no marker and no output is put, the
    counter is not incremented and the run goes on with the next date. *)
Theorem C6_missing_or_empty_unit_is_skipped (w : world) (raw : args) (st0 : state)
    (before : list string) (date : string) (rest : list string) (st : state) (n : nat) :
  reaches w raw st0 before date rest st n →
  (objects st !! (in_bucket raw, in_key_of (normalized raw) date) = None
   ∨ ∃ df, objects st !! (in_bucket raw, in_key_of (normalized raw) date)
           = Some (ParquetFile df) ∧ nrows df = 0%nat) →
  process_date w (normalized raw) st date
  = (log (GetObject (in_bucket raw) (in_key_of (normalized raw) date)) st,
     Ok (match objects st !! (in_bucket raw, in_key_of (normalized raw) date) with
         | None => SkippedMissing
         | Some _ => SkippedEmpty
         end))
  ∧ objects (log (GetObject (in_bucket raw) (in_key_of (normalized raw) date)) st)
    = objects st
  ∧ trace (log (GetObject (in_bucket raw) (in_key_of (normalized raw) date)) st)
    = trace st ++ [GetObject (in_bucket raw) (in_key_of (normalized raw) date)]
  ∧ process_kind w raw st0
    = finish (normalized raw) st0
        (for_dates w (normalized raw)
           (log (GetObject (in_bucket raw) (in_key_of (normalized raw) date)) st) n rest).
Proof.
  intros Hreach Hskip.
  assert (Hpd : process_date w (normalized raw) st date
    = (log (GetObject (in_bucket raw) (in_key_of (normalized raw) date)) st,
       Ok (match objects st !! (in_bucket raw, in_key_of (normalized raw) date) with
           | None => SkippedMissing
           | Some _ => SkippedEmpty
           end))).
  { unfold process_date, read_parquet_s3. simpl.
    destruct Hskip as [-> | (df & -> & Hrows)]; [done |].
    unfold empty. rewrite Hrows. by rewrite bool_decide_eq_true_2. }
  split; [done |]. split; [done |]. split; [done |].
  rewrite (process_kind_reaches _ _ _ _ _ _ _ _ Hreach).
  f_equal. eapply for_dates_skip; [exact Hpd |].
  by destruct (objects st !! _).
Qed.

(** C7, as stated, fails: a table that lacks [Item_ID] and has no rows is
    skipped as empty at line 154, before the column is looked for, and the
    run ends normally. *)
Lemma C7_empty_table_without_key_column_is_skipped :
  has_column "Item_ID" NoKeyColumn.df = false
  ∧ process_kind Scenario.calm Scenario.job NoKeyColumn.before
    = ({| objects := objects NoKeyColumn.before;
          trace := [ListObjects "src" "in/"; ListObjects "dst" "marker/";
                    GetObject "src" "in/20250101.parquet"] |},
       Ok {| sum_kind := "demo"; input_files := 1; output_files := 0;
             missing_dates := ["20250101"]; processed_days := 0 |}).
Proof. split; [done | by vm_compute]. Qed.

(** C7, amended: when a loaded table that is not empty lacks the column
    [Item_ID], [process_kind] raises the [ValueError] of line 159 at once:
    the state it leaves has only the read of that unit added, so no
    partition and no marker was put and no later date was touched. *)
Theorem C7_missing_key_column_aborts_run (w : world) (raw : args) (st0 : state)
    (before : list string) (date : string) (rest : list string) (st : state)
    (n : nat) (df : DataFrame) :
  reaches w raw st0 before date rest st n →
  objects st !! (in_bucket raw, in_key_of (normalized raw) date) = Some (ParquetFile df) →
  empty df = false →
  has_column "Item_ID" df = false →
  process_kind w raw st0
  = ({| objects := objects st;
        trace := trace st ++ [GetObject (in_bucket raw) (in_key_of (normalized raw) date)] |},
     Raise (ValueError ("'Item_ID' column missing in " +:+ in_key_of (normalized raw) date))).
Proof.
  intros Hreach Hobj Hne Hcol.
  rewrite (process_kind_reaches _ _ _ _ _ _ _ _ Hreach).
  erewrite for_dates_raise; [reflexivity |].
  unfold process_date, read_parquet_s3. simpl. by rewrite Hobj, Hne, Hcol.
Qed.

(** ** Which bucket is written *)

(** C10, as stated, fails where it says that the input bucket is never
    written: nothing keeps [IN_BUCKET] and [OUT_BUCKET] apart, and when
    they name one bucket every put goes to the input bucket. *)
Lemma C10_same_bucket_is_written :
  trace (process_kind Scenario.calm OneBucket.job OneBucket.before).1
  = [ListObjects "lake" "in/"; ListObjects "lake" "marker/";
     GetObject "lake" "in/20250101.parquet";
     PutObject "lake" "out/A/20250101.parquet";
     PutObject "lake" "out/B/20250101.parquet";
     PutObject "lake" "marker/20250101.json"]
  ∧ PutObject (in_bucket OneBucket.job) "marker/20250101.json"
    ∈ trace (process_kind Scenario.calm OneBucket.job OneBucket.before).1.
Proof. split; [by vm_compute |]. vm_compute. repeat (constructor; try done). Qed.

Lemma unit_event_put_bucket a d ev :
  unit_event a d ev → is_put ev → event_bucket ev = out_bucket a.
Proof. by destruct 1. Qed.

Lemma unit_key_bucket a d bk : unit_key a d bk → bk.1 = out_bucket a.
Proof. by intros [-> | [k ->]]. Qed.

(** The calls and the writes of a whole run. *)
Lemma process_kind_effects (w : world) (raw : args) (st : state) :
  ∃ evs : list event,
    trace (process_kind w raw st).1
    = trace st ++ ListObjects (in_bucket raw) (normalize (in_prefix raw))
                :: ListObjects (out_bucket raw) (normalize (marker_prefix raw)) :: evs
    ∧ Forall (fun ev => ∃ d, d ∈ outstanding (normalized raw) st
                             ∧ unit_event (normalized raw) d ev) evs
    ∧ Forall (fun ev => is_put ev → event_bucket ev = out_bucket raw) evs
    ∧ (∀ b k, b ≠ out_bucket raw →
         objects (process_kind w raw st).1 !! (b, k) = objects st !! (b, k))
    ∧ (in_bucket raw ≠ out_bucket raw →
       ∀ k, objects (process_kind w raw st).1 !! (in_bucket raw, k)
            = objects st !! (in_bucket raw, k)).
Proof.
  rewrite process_kind_state.
  destruct (for_dates_extends w (normalized raw) (listed (normalized raw) st) 0
              (outstanding (normalized raw) st)) as ((evs & Ht & Hev) & _ & Hn).
  assert (Hother : ∀ b k, b ≠ out_bucket raw →
            objects (for_dates w (normalized raw) (listed (normalized raw) st) 0
                       (outstanding (normalized raw) st)).1 !! (b, k)
            = objects st !! (b, k)).
  { intros b k Hb.
    destruct (decide (objects (for_dates w (normalized raw) (listed (normalized raw) st) 0
                (outstanding (normalized raw) st)).1 !! (b, k)
              = objects (listed (normalized raw) st) !! (b, k))) as [Heq | Hne]; [done |].
    destruct (Hn _ Hne) as (d & _ & Hu%unit_key_bucket). by destruct Hb. }
  exists evs. split; [|split; [|split; [|split]]].
  - rewrite Ht. simpl. by rewrite <- !app_assoc.
  - done.
  - eapply Forall_impl; [exact Hev |]. intros ev (d & _ & Hu) Hput.
    by apply (unit_event_put_bucket _ _ _ Hu).
  - done.
  - intros Hb k. by apply Hother.
Qed.

(** C10, amended: markers are listed from [OUT_BUCKET] under the marker
    prefix and put there; after the two listings every call of the run is
    a read of an input key, or a put, accepted or rejected, of a partition
    key or of a marker key in [OUT_BUCKET]; the objects of every other
    bucket are left as they were, so the input bucket is never written
    when it is not [OUT_BUCKET] itself. *)
Theorem C10_every_put_targets_out_bucket (w : world) (raw : args) (st : state) :
  ∃ evs : list event,
    trace (process_kind w raw st).1
    = trace st ++ ListObjects (in_bucket raw) (normalize (in_prefix raw))
                :: ListObjects (out_bucket raw) (normalize (marker_prefix raw)) :: evs
    ∧ Forall (fun ev => ∃ d, d ∈ outstanding (normalized raw) st
                             ∧ unit_event (normalized raw) d ev) evs
    ∧ Forall (fun ev => is_put ev → event_bucket ev = out_bucket raw) evs
    ∧ (∀ b k, b ≠ out_bucket raw →
         objects (process_kind w raw st).1 !! (b, k) = objects st !! (b, k))
    ∧ (in_bucket raw ≠ out_bucket raw →
       ∀ k, objects (process_kind w raw st).1 !! (in_bucket raw, k)
            = objects st !! (in_bucket raw, k)).
Proof. apply process_kind_effects. Qed.

(** ** The timestamp of the marker *)

Lemma fits_app p1 p2 s1 s2 :
  fits p1 s1 = true → fits p2 s2 = true → fits (p1 ++ p2) (s1 +:+ s2) = true.
Proof.
  revert s1. induction p1 as [|c p1 IH]; intros [|x s1]; simpl; try done.
  - by destruct c.
  - destruct c; intros [-> H1]%andb_true_iff H2; simpl; by apply IH.
Qed.

Lemma two_digits (n : Z) : (0 ≤ n < 100)%Z → fits [Digit; Digit] (zero_pad 2 n) = true.
Proof.
  intros Hn.
  assert (Hall : forallb (fun n => fits [Digit; Digit] (zero_pad 2 n)) (seqZ 0 100) = true)
    by (by vm_compute).
  rewrite forallb_forall in Hall. apply Hall, list_elem_of_In, elem_of_seqZ. lia.
Qed.

Lemma four_digits (n : Z) :
  (1000 ≤ n < 10000)%Z → fits [Digit; Digit; Digit; Digit] (pretty n) = true.
Proof.
  intros Hn.
  assert (Hall : forallb (fun n => fits [Digit; Digit; Digit; Digit] (pretty n))
                   (seqZ 1000 9000) = true) by (by vm_compute).
  rewrite forallb_forall in Hall. apply Hall, list_elem_of_In, elem_of_seqZ. lia.
Qed.

Lemma strftime_shape (t : struct_time) :
  tm_in_range t → fits iso_utc_seconds (strftime t) = true.
Proof.
  intros (Hy & Hmo & Hd & Hh & Hmi & Hs). unfold strftime.
  change iso_utc_seconds with
    ([Digit; Digit; Digit; Digit] ++ [Exactly "-"%char] ++ [Digit; Digit]
     ++ [Exactly "-"%char] ++ [Digit; Digit] ++ [Exactly "T"%char] ++ [Digit; Digit]
     ++ [Exactly ":"%char] ++ [Digit; Digit] ++ [Exactly ":"%char] ++ [Digit; Digit]
     ++ [Exactly "Z"%char]).
  repeat (apply fits_app; [first [apply four_digits | apply two_digits | done]; lia |]).
  done.
Qed.

(** ** The completion marker *)

Lemma unit_run_marked_inv w a st date st1 :
  unit_run w a st date st1 (Ok Marked) →
  ∃ df, splittable w a st date df
        ∧ Forall (fun t : task => put_fails w t.1.2 t.2 = false) (submitted a date df)
        ∧ put_fails w (out_bucket a) (marker_key_of a date) = false
        ∧ st1 = store (out_bucket a) (marker_key_of a date)
                  (JsonFile (marker_doc_of w a (after_writes w a st date df) date
                               (s3_uri (out_bucket a) <$> ok_keys (yielded w a date df))))
                  (after_writes w a st date df).
Proof. inversion 1; subst. by exists df. Qed.

Lemma process_date_marked_inv w a st date st1 :
  process_date w a st date = (st1, Ok Marked) →
  ∃ df, splittable w a st date df
        ∧ Forall (fun t : task => put_fails w t.1.2 t.2 = false) (submitted a date df)
        ∧ put_fails w (out_bucket a) (marker_key_of a date) = false
        ∧ st1 = store (out_bucket a) (marker_key_of a date)
                  (JsonFile (marker_doc_of w a (after_writes w a st date df) date
                               (s3_uri (out_bucket a) <$> ok_keys (yielded w a date df))))
                  (after_writes w a st date df).
Proof.
  intros H. apply unit_run_marked_inv.
  pose proof (process_date_run w a st date) as Hr. by rewrite H in Hr.
Qed.

Lemma task_event_all_ok (w : world) (ts : list task) :
  Forall (fun t : task => put_fails w t.1.2 t.2 = false) ts →
  task_event w <$> ts = (fun t : task => PutObject t.1.2 t.2) <$> ts.
Proof.
  intros Hall. apply Forall_fmap_ext. eapply Forall_impl; [exact Hall |].
  intros t Ht. unfold task_event. by rewrite Ht.
Qed.

Lemma unit_event_marker_date a d date :
  unit_event a d (PutObject (out_bucket a) (marker_key_of a date)) → d = date.
Proof.
  inversion 1 as [|k Hk| | Hk|].
  - by destruct (out_key_is_not_marker_key a k d date).
  - by apply marker_key_inj in Hk.
Qed.

Lemma marker_put_only_by_its_date a (ds : list string) date (evs : list event) :
  date ∉ ds →
  Forall (fun ev => ∃ d, d ∈ ds ∧ unit_event a d ev) evs →
  PutObject (out_bucket a) (marker_key_of a date) ∉ evs.
Proof.
  intros Hd Hall Hin. eapply Forall_forall in Hall; [|exact Hin].
  destruct Hall as (d & Hds & ->%unit_event_marker_date). done.
Qed.

Lemma submitted_length a date df : length (submitted a date df) = nunique "Item_ID" df.
Proof.
  unfold submitted, groupby. rewrite !length_fmap. apply group_positions_length.
Qed.

(** C4: when the body of the loop ends a unit as processed, every
    partition put of the unit was accepted and the marker was put after
    them, once in the whole run; the marker document has the six fields of
    lines 177-184, its [outputs] are the locations of the partition puts of
    the unit, its [output_count] is the number of distinct values present
    in the [Item_ID] column of the unit's table, and its [generated_at] is
    the clock read after the partition puts, printed as
    YYYY-MM-DDTHH:MM:SSZ. *)
Theorem C4_marker_is_faithful (w : world) (raw : args) (st0 : state)
    (before : list string) (date : string) (rest : list string) (st : state)
    (n : nat) (st1 : state) :
  reaches w raw st0 before date rest st n →
  process_date w (normalized raw) st date = (st1, Ok Marked) →
  ∃ (df : DataFrame) (doc : marker_doc) (evs_before evs_rest : list event),
    splittable w (normalized raw) st date df
    ∧ trace (for_dates w (normalized raw) st1 (S n) rest).1
      = trace (listed (normalized raw) st0) ++ evs_before
        ++ (GetObject (in_bucket raw) (in_key_of (normalized raw) date)
              :: ((fun t : task => PutObject t.1.2 t.2)
                    <$> start_order w (submitted (normalized raw) date df))
              ++ [PutObject (out_bucket raw) (marker_key_of (normalized raw) date)])
        ++ evs_rest
    ∧ (PutObject (out_bucket raw) (marker_key_of (normalized raw) date) ∉ evs_before)
    ∧ (PutObject (out_bucket raw) (marker_key_of (normalized raw) date)
         ∉ (GetObject (in_bucket raw) (in_key_of (normalized raw) date)
              :: ((fun t : task => PutObject t.1.2 t.2)
                    <$> start_order w (submitted (normalized raw) date df))))
    ∧ (PutObject (out_bucket raw) (marker_key_of (normalized raw) date) ∉ evs_rest)
    ∧ objects st1 !! (out_bucket raw, marker_key_of (normalized raw) date)
      = Some (JsonFile doc)
    ∧ doc_kind doc = kind raw
    ∧ doc_date doc = date
    ∧ doc_input_key doc = s3_uri (in_bucket raw) (in_key_of (normalized raw) date)
    ∧ doc_outputs doc
        ≡ₚ (fun t : task => s3_uri t.1.2 t.2) <$> submitted (normalized raw) date df
    ∧ doc_output_count doc = length (doc_outputs doc)
    ∧ doc_output_count doc = nunique "Item_ID" df
    ∧ doc_generated_at doc
      = strftime (gmtime w (length (trace st)
                            + S (length (submitted (normalized raw) date df))))
    ∧ fits iso_utc_seconds (doc_generated_at doc) = true.
Proof.
  set (a := normalized raw). intros [Hout Hbefore] Hpd. fold a in Hout, Hbefore.
  destruct (process_date_marked_inv _ _ _ _ _ Hpd) as (df & Hs & Hall & Hm & ->).
  destruct (process_date_marked w a st date df Hs Hall Hm) as [_ Hkeys].
  assert (Hnd : NoDup (before ++ date :: rest)).
  { rewrite <- Hout. apply NoDup_sorted. }
  apply NoDup_app in Hnd as (_ & Hnb & [Hnr _]%NoDup_cons).
  pose proof (for_dates_extends w a (listed a st0) 0 before) as ((evb & Htb & Hevb) & _).
  rewrite Hbefore in Htb. simpl in Htb.
  set (st1 := store (out_bucket a) (marker_key_of a date) _ _).
  pose proof (for_dates_extends w a st1 (S n) rest) as ((evr & Htr & Hevr) & _).
  assert (Hst : Forall (fun t : task => put_fails w t.1.2 t.2 = false)
                  (start_order w (submitted a date df))) by (by rewrite start_order_perm).
  exists df, (marker_doc_of w a (after_writes w a st date df) date
                (s3_uri (out_bucket a) <$> ok_keys (yielded w a date df))), evb, evr.
  split; [done |]. split; [|split; [|split; [|split; [|split]]]].
  - rewrite Htr. unfold st1. simpl. rewrite Htb, (task_event_all_ok _ _ Hst).
    by rewrite <- !app_assoc.
  - apply (marker_put_only_by_its_date a before); [|done].
    intros Hin. by apply (Hnb date Hin); left.
  - rewrite <- (task_event_all_ok _ _ Hst). apply (partition_events_spare_marker w a).
  - by apply (marker_put_only_by_its_date a rest).
  - unfold st1. simpl. by rewrite lookup_insert_eq.
  - simpl. split; [done |]. split; [done |]. split; [done |].
    split; [|split; [done |split; [|split]]].
    + rewrite Hkeys, <- !list_fmap_compose. apply reflexive_eq, list_fmap_ext.
      intros ? t Ht%list_elem_of_lookup_2.
      apply submitted_key_is_out_key in Ht as [Hb _]. simpl. by rewrite Hb.
    + rewrite length_fmap, Hkeys, length_fmap. apply submitted_length.
    + f_equal. f_equal. rewrite length_app. simpl.
      by rewrite length_fmap, start_order_perm.
    + apply strftime_shape, gmtime_in_range.
Qed.

(** ** Key conventions *)







(** ** Rows without a key *)

Lemma for_dates_marked w a st n date rest st1 :
  process_date w a st date = (st1, Ok Marked) →
  for_dates w a st n (date :: rest) = for_dates w a st1 (S n) rest.
Proof. intros H. simpl. by rewrite H. Qed.



(** ** Resuming: a second run after a complete first run *)

Lemma elem_of_bucket_keys st b k :
  k ∈ bucket_keys st b ↔ is_Some (objects st !! (b, k)).
Proof.
  unfold bucket_keys. rewrite merge_sort_Permutation, list_elem_of_omap. split.
  - intros ([b' k'] & Hin & Hk). simpl in Hk.
    destruct (decide (b' = b)) as [-> |]; [|done]. injection Hk as ->.
    by apply elem_of_elements, elem_of_dom in Hin.
  - intros Hs. exists (b, k). split; [by apply elem_of_elements, elem_of_dom |].
    simpl. by rewrite decide_True.
Qed.

Lemma elem_of_list_keys st b p suffix k :
  k ∈ (list_keys_with_suffix st b p suffix).2
  ↔ is_Some (objects st !! (b, k)) ∧ startswith k p = true ∧ endswith k suffix = true.
Proof.
  unfold list_keys_with_suffix. simpl.
  rewrite !list_elem_of_filter, elem_of_bucket_keys.
  destruct (endswith k suffix), (startswith k p); naive_solver.
Qed.

Lemma startswith_app (p s : string) : startswith (p +:+ s) p = true.
Proof. induction p as [|c p IH]; simpl; [by destruct s |]. by rewrite Ascii.eqb_refl. Qed.

Lemma no_sep_with_suffix (d suffix : string) :
  has_sep d = false → has_sep suffix = false → has_sep (d +:+ suffix) = false.
Proof. intros Hd Hs. by rewrite has_sep_app, Hd, Hs. Qed.

Lemma unit_id_of_key (p d suffix : string) :
  has_sep d = false → has_sep suffix = false →
  unit_id suffix (p +:+ "/" +:+ d +:+ suffix) = Some d.
Proof.
  intros Hd Hs. unfold unit_id.
  change (p +:+ "/" +:+ d +:+ suffix) with (p +:+ String sep (d +:+ suffix)).
  rewrite basename_app_sep by (by apply no_sep_with_suffix).
  by rewrite endswith_app, drop_end_app.
Qed.

Lemma unit_id_out_key a k d :
  has_sep d = false → unit_id ".parquet" (out_key_of a k d) = Some d.
Proof.
  intros Hd. unfold out_key_of. rewrite <- str_app_assoc. by apply unit_id_of_key.
Qed.

Lemma unit_id_marker_key raw d :
  has_sep d = false → unit_id ".json" (marker_key_of (normalized raw) d) = Some d.
Proof.
  intros Hd. unfold marker_key_of. simpl. unfold normalize.
  rewrite str_app_assoc. by apply unit_id_of_key.
Qed.

Lemma marker_key_is_no_input raw d :
  has_sep d = false → unit_id ".parquet" (marker_key_of (normalized raw) d) = None.
Proof.
  intros Hd. unfold marker_key_of. simpl. unfold normalize. rewrite str_app_assoc.
  unfold unit_id.
  change (rstrip_sep (marker_prefix raw) +:+ "/" +:+ d +:+ ".json")
    with (rstrip_sep (marker_prefix raw) +:+ String sep (d +:+ ".json")).
  rewrite basename_app_sep by (by apply no_sep_with_suffix).
  destruct (endswith (d +:+ ".json") ".parquet") eqn:He; [|done].
  apply endswith_inv in He as [q Hq]. symmetry in Hq.
  by apply parquet_is_not_json in Hq.
Qed.

Lemma elem_of_input_dates a st u :
  u ∈ input_dates_in a st ↔
  ∃ k, is_Some (objects st !! (in_bucket a, k)) ∧ startswith k (in_prefix a) = true
       ∧ endswith k ".parquet" = true ∧ unit_id ".parquet" k = Some u.
Proof.
  unfold input_dates_in. rewrite elem_of_extract_dates_from_keys.
  setoid_rewrite elem_of_list_keys. naive_solver.
Qed.

Lemma elem_of_done_dates a st u :
  u ∈ done_dates_in a st ↔
  ∃ k, is_Some (objects st !! (out_bucket a, k)) ∧ startswith k (marker_prefix a) = true
       ∧ endswith k ".json" = true ∧ unit_id ".json" k = Some u.
Proof.
  unfold done_dates_in. rewrite elem_of_extract_dates_from_marker_keys.
  setoid_rewrite elem_of_list_keys. naive_solver.
Qed.

Lemma elem_of_outstanding a st u :
  u ∈ outstanding a st ↔ u ∈ input_dates_in a st ∧ u ∉ done_dates_in a st.
Proof. unfold outstanding. by rewrite elem_of_sorted, elem_of_difference. Qed.

Lemma outstanding_has_no_sep a st u : u ∈ outstanding a st → has_sep u = false.
Proof.
  intros [(k & _ & _ & _ & Hu)%elem_of_input_dates _]%elem_of_outstanding.
  by eapply unit_id_has_no_sep.
Qed.

(** A loop that counts every date leaves the marker of every date. *)
Lemma for_dates_count w a st n ds st' m :
  for_dates w a st n ds = (st', Ok m) →
  (m ≤ n + length ds)%nat
  ∧ (m = (n + length ds)%nat →
     ∀ d, d ∈ ds → is_Some (objects st' !! (out_bucket a, marker_key_of a d))).
Proof.
  revert st n. induction ds as [|d ds IH]; intros st n; simpl.
  - intros [= -> ->]. split; [lia |]. intros _ d Hd. by apply elem_of_nil in Hd.
  - destruct (process_date w a st d) as [st1 [o|e]] eqn:Hpd; [|done].
    destruct o; intros Hfor; destruct (IH _ _ Hfor) as [Hle Hall];
      (split; [lia |]); intros Hm; try lia.
    intros d' [-> | Hd']%elem_of_cons; [|apply Hall; [lia | done]].
    pose proof (for_dates_extends w a st1 (S n) ds) as (_ & Hkeep & _).
    rewrite Hfor in Hkeep. apply Hkeep.
    apply process_date_marked_inv in Hpd as (df & _ & _ & _ & ->).
    simpl. by rewrite lookup_insert_eq.
Qed.

Lemma input_dates_stable w a st n :
  input_dates_in a (for_dates w a (listed a st) n (outstanding a st)).1
  = input_dates_in a st.
Proof.
  pose proof (for_dates_extends w a (listed a st) n (outstanding a st))
    as (_ & Hkeep & Hnew).
  apply set_eq. intros u. rewrite !elem_of_input_dates. split.
  - intros (k & Hk & Hp & He & Hu).
    destruct (objects st !! (in_bucket a, k)) as [o|] eqn:Hold.
    { exists k. by rewrite Hold. }
    destruct (Hnew (in_bucket a, k)) as (d & Hd & Hkey).
    { simpl. rewrite Hold. by destruct Hk as [? ->]. }
    assert (Hsep : has_sep d = false) by (by eapply outstanding_has_no_sep).
    apply elem_of_outstanding in Hd as [Hd _].
    destruct Hkey as [[= _ ->] | [item [= _ ->]]].
    + exfalso. unfold unit_id in Hu.
      destruct (endswith_inv _ _ He) as [q Hq]. symmetry in Hq.
      unfold marker_key_of in Hq. rewrite <- str_app_assoc in Hq.
      by apply parquet_is_not_json in Hq.
    + rewrite unit_id_out_key in Hu by done. injection Hu as <-.
      by apply elem_of_input_dates.
  - intros (k & Hk & Hp & He & Hu). exists k. split; [by apply Hkeep | done].
Qed.

Lemma done_dates_grow w a st n u :
  u ∈ done_dates_in a st →
  u ∈ done_dates_in a (for_dates w a (listed a st) n (outstanding a st)).1.
Proof.
  pose proof (for_dates_extends w a (listed a st) n (outstanding a st)) as (_ & Hkeep & _).
  rewrite !elem_of_done_dates. intros (k & Hk & Hrest). exists k.
  split; [by apply Hkeep | done].
Qed.

Lemma marker_in_store_is_done raw st d :
  has_sep d = false →
  is_Some (objects st !! (out_bucket raw, marker_key_of (normalized raw) d)) →
  d ∈ done_dates_in (normalized raw) st.
Proof.
  intros Hsep Hin. apply elem_of_done_dates.
  exists (marker_key_of (normalized raw) d). split; [done |]. split; [|split].
  - apply startswith_app.
  - unfold marker_key_of. rewrite <- str_app_assoc. apply endswith_app.
  - by apply unit_id_marker_key.
Qed.

Lemma sorted_empty : sorted ∅ = [].
Proof. unfold sorted. by rewrite elements_empty. Qed.

(** C5: when a run of [process_kind] ends normally with every
    outstanding date counted as processed, a second run on the store it
    leaves, whatever the schedule and the store's answers, finds the same
    input dates, every one of them marked, so nothing outstanding: it makes
    the two listings and nothing else, leaving the store as it was. *)
Theorem C5_second_run_writes_nothing (w1 w2 : world) (raw : args) (st st1 : state)
    (s1 : summary) :
  process_kind w1 raw st = (st1, Ok s1) →
  processed_days s1 = length (missing_dates s1) →
  input_dates_in (normalized raw) st1 = input_dates_in (normalized raw) st
  ∧ input_dates_in (normalized raw) st1 ⊆ done_dates_in (normalized raw) st1
  ∧ outstanding (normalized raw) st1 = []
  ∧ process_kind w2 raw st1
    = ({| objects := objects st1;
          trace := trace st1
                   ++ [ListObjects (in_bucket raw) (normalize (in_prefix raw));
                       ListObjects (out_bucket raw) (normalize (marker_prefix raw))] |},
       Ok {| sum_kind := kind raw;
             input_files := size (input_dates_in (normalized raw) st1);
             output_files := size (done_dates_in (normalized raw) st1);
             missing_dates := [];
             processed_days := 0 |}).
Proof.
  set (a := normalized raw). intros Hrun Hcount.
  rewrite process_kind_unfold in Hrun. fold a in Hrun.
  pose proof (input_dates_stable w1 a st 0) as Hin.
  pose proof (done_dates_grow w1 a st 0) as Hdone.
  destruct (for_dates w1 a (listed a st) 0 (outstanding a st)) as [stf [m|e]] eqn:Hfor;
    [|done].
  simpl in Hrun, Hin, Hdone. injection Hrun as -> <-. simpl in Hcount.
  destruct (for_dates_count _ _ _ _ _ _ _ Hfor) as [_ Hmarked].
  specialize (Hmarked Hcount).
  assert (Hsub : input_dates_in a st1 ⊆ done_dates_in a st1).
  { intros u Hu. rewrite Hin in Hu.
    destruct (decide (u ∈ done_dates_in a st)) as [Hd | Hd]; [by apply Hdone |].
    assert (Hout : u ∈ outstanding a st) by (by apply elem_of_outstanding).
    apply marker_in_store_is_done; [by eapply outstanding_has_no_sep |].
    by apply Hmarked. }
  assert (Hnone : outstanding a st1 = []).
  { unfold outstanding. replace (input_dates_in a st1 ∖ done_dates_in a st1)
      with (∅ : gset string) by set_solver. apply sorted_empty. }
  split; [done |]. split; [done |]. split; [done |].
  rewrite process_kind_unfold. fold a. rewrite Hnone. simpl.
  unfold listed, log. simpl. by rewrite Hnone, <- app_assoc.
Qed.

(** ** The theorems at work on concrete runs *)

(** The example of section 8: two input dates, the second without rows,
    no marker yet. *)
Example section_8_scenario :
  trace (process_kind Scenario.calm Scenario.job Scenario.before).1
  = [ListObjects "src" "in/"; ListObjects "dst" "marker/";
     GetObject "src" "in/20250101.parquet";
     PutObject "dst" "out/A/20250101.parquet";
     PutObject "dst" "out/B/20250101.parquet";
     PutObject "dst" "marker/20250101.json";
     GetObject "src" "in/20250108.parquet"]
  ∧ (process_kind Scenario.calm Scenario.job Scenario.before).2
    = Ok {| sum_kind := "demo"; input_files := 2; output_files := 0;
            missing_dates := ["20250101"; "20250108"]; processed_days := 1 |}
  ∧ objects (process_kind Scenario.calm Scenario.job Scenario.before).1
      !! ("dst", "out/A/20250101.parquet")
    = Some (ParquetFile
              {| nrows := 2;
                 columns := [("Item_ID", StrColumn [Some "A"; Some "A"]);
                             ("qty", IntColumn [Some 1; Some 2]%Z)] |})
  ∧ objects (process_kind Scenario.calm Scenario.job Scenario.before).1
      !! ("dst", "marker/20250108.json") = None.
Proof. repeat split; by vm_compute. Qed.

(** C3 on the scenario of section 8 with the put of partition B rejected. *)
Lemma C3_failed_write_aborts_run_witness :
  ∃ st', process_kind Scenario.flaky Scenario.job Scenario.before
         = (st', Raise (PutError "dst" "out/B/20250101.parquet")).
Proof.
  destruct (C3_failed_write_aborts_run Scenario.flaky Scenario.job Scenario.before
              [] "20250101" ["20250108"]
              (listed (normalized Scenario.job) Scenario.before) 0 Scenario.day1
              (take [2%nat] Scenario.day1, "dst", "out/B/20250101.parquet"))
    as (ks & e & post & st' & Hy & _ & Hrun & _).
  - split; by vm_compute.
  - repeat split; by vm_compute.
  - vm_compute. right. left.
  - by vm_compute.
  - exists st'. vm_compute in Hy.
    destruct ks as [|k ks]; cbv in Hy; [|discriminate Hy].
    injection Hy as <- _. exact Hrun.
Defined.

(** C4 on the first date of the scenario of section 8. *)
Lemma C4_marker_is_faithful_witness :
  ∃ doc, objects (process_date Scenario.calm (normalized Scenario.job)
                    (listed (normalized Scenario.job) Scenario.before) "20250101").1
           !! ("dst", "marker/20250101.json") = Some (JsonFile doc)
         ∧ doc_output_count doc = 2%nat
         ∧ fits iso_utc_seconds (doc_generated_at doc) = true.
Proof.
  destruct (C4_marker_is_faithful Scenario.calm Scenario.job Scenario.before
              [] "20250101" ["20250108"]
              (listed (normalized Scenario.job) Scenario.before) 0
              (process_date Scenario.calm (normalized Scenario.job)
                 (listed (normalized Scenario.job) Scenario.before) "20250101").1)
    as (df & doc & evb & evr & Hs & _ & _ & _ & _ & Hdoc & _ & _ & _ & _ & _ & Hn & _ & Hfit).
  - split; by vm_compute.
  - by vm_compute.
  - exists doc. split; [exact Hdoc |]. split; [|exact Hfit].
    destruct Hs as (Hobj & _). vm_compute in Hobj. injection Hobj as <-.
    rewrite Hn. by vm_compute.
Defined.

(** C5 on a store with one input, processed by the first run. *)
Lemma C5_second_run_writes_nothing_witness :
  outstanding (normalized OneBucket.job)
    (process_kind Scenario.calm OneBucket.job OneBucket.before).1 = [].
Proof.
  destruct (C5_second_run_writes_nothing Scenario.calm Scenario.flaky OneBucket.job
              OneBucket.before
              (process_kind Scenario.calm OneBucket.job OneBucket.before).1
              {| sum_kind := "demo"; input_files := 1; output_files := 0;
                 missing_dates := ["20250101"]; processed_days := 1 |})
    as (_ & _ & Hnone & _).
  - by vm_compute.
  - by vm_compute.
  - exact Hnone.
Defined.

(** C6 on the second date of the scenario of section 8, a table without
    rows. *)
Lemma C6_missing_or_empty_unit_is_skipped_witness :
  process_kind Scenario.calm Scenario.job Scenario.before
  = finish (normalized Scenario.job) Scenario.before
      (for_dates Scenario.calm (normalized Scenario.job)
         (log (GetObject "src" "in/20250108.parquet")
            (for_dates Scenario.calm (normalized Scenario.job)
               (listed (normalized Scenario.job) Scenario.before) 0 ["20250101"]).1)
         1 []).
Proof.
  destruct (C6_missing_or_empty_unit_is_skipped Scenario.calm Scenario.job Scenario.before
              ["20250101"] "20250108" []
              (for_dates Scenario.calm (normalized Scenario.job)
                 (listed (normalized Scenario.job) Scenario.before) 0 ["20250101"]).1 1)
    as (_ & _ & _ & Hrun).
  - split; by vm_compute.
  - right. exists Scenario.day2. split; by vm_compute.
  - exact Hrun.
Defined.

(** C7 on a table with one row and no [Item_ID] column. *)
Lemma C7_missing_key_column_aborts_run_witness :
  (process_kind Scenario.calm Scenario.job NoKeyColumn.before_one_row).2
  = Raise (ValueError "'Item_ID' column missing in in/20250101.parquet").
Proof.
  rewrite (C7_missing_key_column_aborts_run Scenario.calm Scenario.job
             NoKeyColumn.before_one_row [] "20250101" []
             (listed (normalized Scenario.job) NoKeyColumn.before_one_row) 0
             NoKeyColumn.one_row).
  - done.
  - split; by vm_compute.
  - by vm_compute.
  - by vm_compute.
  - by vm_compute.
Defined.


(** * Part III: further properties of the program *)

(** ** The command line and paged listings *)

Lemma index_of_first (x : string) (pre post : list string) :
  x ∉ pre → index_of x (pre ++ x :: post) = Some (length pre).
Proof.
  intros Hpre. unfold index_of.
  induction pre as [|y pre IH]; simpl.
  - by rewrite decide_True.
  - rewrite decide_False by set_solver.
    apply not_elem_of_cons in Hpre as [_ Hpre]. specialize (IH Hpre).
    destruct (list_find _ (pre ++ x :: post)) as [[i z]|]; simplify_eq/=. done.
Qed.

(** The flag on the command line wins over the environment and the
    default, and its first occurrence counts: the value is the argument
    that follows it, whatever that is. *)
Theorem get_arg_flag_first (argv : list string) (environ : gmap string string)
    (name : string) (default : option string) (pre post : list string) (v : string) :
  argv = pre ++ ("--" +:+ name) :: v :: post →
  ("--" +:+ name) ∉ pre →
  get_arg argv environ name default = ArgValue (Some v).
Proof.
  intros -> Hpre. unfold get_arg.
  rewrite bool_decide_eq_true_2 by (apply elem_of_app; right; left).
  rewrite index_of_first by done.
  rewrite lookup_app_r by lia.
  by replace (length pre + 1 - length pre)%nat with 1%nat by lia.
Qed.

(** When the first occurrence of the flag is the last word of the
    command line, [get_arg] raises [IndexError], even when the environment
    or the default could supply the value. *)
Theorem get_arg_flag_last_raises (argv : list string) (environ : gmap string string)
    (name : string) (default : option string) (pre : list string) :
  argv = pre ++ ["--" +:+ name] →
  ("--" +:+ name) ∉ pre →
  get_arg argv environ name default = ArgIndexError.
Proof.
  intros -> Hpre. unfold get_arg.
  rewrite bool_decide_eq_true_2 by (apply elem_of_app; right; left).
  rewrite index_of_first by done.
  rewrite lookup_ge_None_2; [done |]. rewrite length_app. simpl. lia.
Qed.

Lemma keys_of_page_fold (suffix : string) (ks acc : list string) :
  foldl (fun keys k => if endswith k suffix then keys ++ [k] else keys) acc ks
  = acc ++ filter (fun k => endswith k suffix) ks.
Proof.
  revert acc. induction ks as [|k ks IH]; intros acc; simpl.
  - by rewrite app_nil_r.
  - rewrite IH. destruct (endswith k suffix) eqn:He.
    + rewrite filter_cons_True by (by rewrite He). by rewrite <- app_assoc.
    + rewrite filter_cons_False; [done |]. rewrite He. by intros [].
Qed.

Lemma keys_of_pages_fold (suffix : string) (pages : list page) (acc : list string) :
  foldl (fun keys p =>
           foldl (fun keys k => if endswith k suffix then keys ++ [k] else keys)
                 keys (contents p)) acc pages
  = acc ++ filter (fun k => endswith k suffix) (concat (contents <$> pages)).
Proof.
  revert acc. induction pages as [|p pages IH]; intros acc; simpl.
  - by rewrite app_nil_r.
  - rewrite IH, keys_of_page_fold, filter_app. by rewrite <- app_assoc.
Qed.

(** However the listing is cut into pages, pages without ["Contents"]
    included, the loops of [list_keys_with_suffix] collect the same keys in
    the same order: those of the bucket that start with the prefix and end
    with the suffix. *)
Theorem list_keys_paging_irrelevant (st : state) (bucket prefix suffix : string)
    (pages : list page) :
  paging_of st bucket prefix pages →
  keys_of_pages suffix pages = (list_keys_with_suffix st bucket prefix suffix).2.
Proof.
  intros Hp. unfold keys_of_pages. rewrite keys_of_pages_fold. simpl. by rewrite Hp.
Qed.

(** ** Listings, prefixes and keys read back *)





Lemma rstrip_sep_app_sep (s : string) : rstrip_sep (s +:+ "/") = rstrip_sep s.
Proof.
  induction s as [|c s IH]; simpl; [done |]. by rewrite IH.
Qed.

Lemma rstrip_sep_idemp (s : string) : rstrip_sep (rstrip_sep s) = rstrip_sep s.
Proof.
  induction s as [|c s IH]; simpl; [done |].
  destruct (rstrip_sep s) as [|c' r] eqn:Hr.
  - destruct (Ascii.eqb c sep) eqn:Hc; simpl; [done |]. by rewrite Hc.
  - simpl in *. rewrite IH. done.
Qed.

Lemma normalize_idemp (p : string) : normalize (normalize p) = normalize p.
Proof. unfold normalize. by rewrite rstrip_sep_app_sep, rstrip_sep_idemp. Qed.

(** Trailing separators of the three prefixes do not matter: a prefix
    and the same prefix followed by one more ['/'] normalize alike,
    normalizing twice changes nothing, and [process_kind] on arguments that
    are already normalized runs exactly as on the raw ones. *)
Theorem prefixes_are_normalized_once (w : world) (raw : args) (st : state) (p : string) :
  normalize (p +:+ "/") = normalize p
  ∧ normalize (normalize p) = normalize p
  ∧ normalized (normalized raw) = normalized raw
  ∧ process_kind w (normalized raw) st = process_kind w raw st.
Proof.
  assert (Hn : normalized (normalized raw) = normalized raw).
  { unfold normalized. simpl. by rewrite !normalize_idemp. }
  split; [unfold normalize; by rewrite rstrip_sep_app_sep |].
  split; [apply normalize_idemp |]. split; [done |].
  by rewrite !process_kind_unfold, Hn.
Qed.

(** The three keys that the job builds for a date are read back as that
    date by the listings of a later run: the input key and every partition
    key as an input of the date, the marker key as its marker; and a marker
    key is never taken for an input, nor an input key for a marker. *)
Theorem keys_are_read_back_as_their_date (raw : args) (d : string) (k : scalar) :
  has_sep d = false →
  unit_id ".parquet" (in_key_of (normalized raw) d) = Some d
  ∧ unit_id ".parquet" (out_key_of (normalized raw) k d) = Some d
  ∧ unit_id ".json" (marker_key_of (normalized raw) d) = Some d
  ∧ unit_id ".parquet" (marker_key_of (normalized raw) d) = None
  ∧ unit_id ".json" (in_key_of (normalized raw) d) = None.
Proof.
  intros Hd. split; [|split; [|split; [|split]]].
  - unfold in_key_of. simpl. unfold normalize. rewrite str_app_assoc.
    by apply unit_id_of_key.
  - by apply unit_id_out_key.
  - by apply unit_id_marker_key.
  - by apply marker_key_is_no_input.
  - unfold in_key_of. simpl. unfold normalize. rewrite str_app_assoc. unfold unit_id.
    change (rstrip_sep (in_prefix raw) +:+ "/" +:+ d +:+ ".parquet")
      with (rstrip_sep (in_prefix raw) +:+ String sep (d +:+ ".parquet")).
    rewrite basename_app_sep by (by apply no_sep_with_suffix).
    destruct (endswith (d +:+ ".parquet") ".json") eqn:He; [|done].
    apply endswith_inv in He as [q Hq]. by apply parquet_is_not_json in Hq.
Qed.


(** ** The order and the count of what a run does *)

Lemma reads_app evs1 evs2 : reads (evs1 ++ evs2) = reads evs1 ++ reads evs2.
Proof. unfold reads. apply omap_app. Qed.

Lemma markers_put_app evs1 evs2 :
  markers_put (evs1 ++ evs2) = (markers_put evs1 + markers_put evs2)%nat.
Proof. unfold markers_put. by rewrite filter_app, length_app. Qed.

Lemma out_key_is_no_json a k d : endswith (out_key_of a k d) ".json" = false.
Proof.
  destruct (endswith (out_key_of a k d) ".json") eqn:He; [|done].
  apply endswith_inv in He as [q Hq]. unfold out_key_of in Hq.
  rewrite <- !str_app_assoc in Hq. by apply parquet_is_not_json in Hq.
Qed.

Lemma marker_key_is_json a d : endswith (marker_key_of a d) ".json" = true.
Proof. unfold marker_key_of. rewrite <- str_app_assoc. apply endswith_app. Qed.

Lemma task_events_quiet w a date df :
  reads (task_event w <$> start_order w (submitted a date df)) = []
  ∧ markers_put (task_event w <$> start_order w (submitted a date df)) = 0%nat.
Proof.
  assert (Hall : Forall (fun t : task => ∃ k, t.2 = out_key_of a k date)
                   (start_order w (submitted a date df))).
  { rewrite start_order_perm. apply Forall_forall. intros t Ht.
    by apply submitted_key_is_out_key in Ht as [_ ?]. }
  induction Hall as [|t ts [k Hk] _ [IH1 IH2]]; [done |].
  rewrite fmap_cons. change (?x :: ?l) with ([x] ++ l).
  rewrite reads_app, markers_put_app, IH1, IH2.
  unfold task_event. rewrite Hk.
  destruct (put_fails w t.1.2 (out_key_of a k date)); [done |].
  unfold markers_put. simpl. rewrite filter_cons_False; [done |].
  simpl. by rewrite out_key_is_no_json.
Qed.

(** The events of one unit: its read first, then puts only, among them
    one marker when, and only when, the unit ends as processed. *)
Lemma unit_run_trace w a st date st' r :
  unit_run w a st date st' r →
  ∃ puts, trace st' = trace st ++ GetObject (in_bucket a) (in_key_of a date) :: puts
          ∧ reads puts = []
          ∧ markers_put puts = (match r with Ok Marked => 1 | _ => 0 end)%nat.
Proof.
  destruct 1;
    try (exists []; split; [done | split; done]).
  - exists (task_event w <$> start_order w (submitted a date df)).
    split; [done |]. apply task_events_quiet.
  - exists ((task_event w <$> start_order w (submitted a date df))
            ++ [PutFailed (out_bucket a) (marker_key_of a date)]).
    split; [simpl; by rewrite <- app_assoc |].
    destruct (task_events_quiet w a date df) as [Hq1 Hq2].
    by rewrite reads_app, markers_put_app, Hq1, Hq2.
  - exists ((task_event w <$> start_order w (submitted a date df))
            ++ [PutObject (out_bucket a) (marker_key_of a date)]).
    split; [simpl; by rewrite <- app_assoc |].
    destruct (task_events_quiet w a date df) as [Hq1 Hq2].
    rewrite reads_app, markers_put_app, Hq1, Hq2. split; [done |].
    unfold markers_put. simpl. rewrite filter_cons_True; [done |].
    simpl. apply marker_key_is_json.
Qed.

Lemma for_dates_trace w a st n ds :
  ∃ evs ds1 ds2,
    ds = ds1 ++ ds2
    ∧ trace (for_dates w a st n ds).1 = trace st ++ evs
    ∧ reads evs = (fun d => (in_bucket a, in_key_of a d)) <$> ds1
    ∧ (∀ m, (for_dates w a st n ds).2 = Ok m →
         ds2 = [] ∧ m = (n + markers_put evs)%nat)
    ∧ (markers_put evs ≤ length ds1)%nat.
Proof.
  revert st n. induction ds as [|d ds IH]; intros st n.
  - exists [], [], []. simpl. rewrite app_nil_r.
    split; [done |]. split; [done |]. split; [done |].
    split; [intros m' [= <-]; split; [done | unfold markers_put; simpl; lia] |].
    unfold markers_put; simpl; lia.
  - simpl.
    pose proof (process_date_run w a st d) as Hrun.
    apply unit_run_trace in Hrun as (puts & Ht & Hr & Hm).
    destruct (process_date w a st d) as [st1 [o|e]] eqn:Hpd; simpl in *.
    + assert (Hnext : ∃ n1, (match o with
                            | Marked => for_dates w a st1 (S n) ds
                            | _ => for_dates w a st1 n ds
                            end) = for_dates w a st1 n1 ds
                            ∧ n1 = (n + markers_put puts)%nat).
      { destruct o; eexists; (split; [reflexivity | lia]). }
      destruct Hnext as (n1 & -> & Hn1).
      destruct (IH st1 n1) as (evs & ds1 & ds2 & -> & Ht' & Hr' & Hok & Hle).
      exists ((GetObject (in_bucket a) (in_key_of a d) :: puts) ++ evs), (d :: ds1), ds2.
      assert (Hmp : markers_put ((GetObject (in_bucket a) (in_key_of a d) :: puts) ++ evs)
                    = (markers_put puts + markers_put evs)%nat).
      { rewrite markers_put_app. f_equal. }
      split; [done |]. split; [by rewrite Ht', Ht, <- app_assoc |].
      split; [rewrite reads_app; simpl; by rewrite Hr, Hr' |].
      rewrite Hmp.
      assert (markers_put puts ≤ 1)%nat by (destruct o; lia).
      split.
      * intros m Hm'. destruct (Hok m Hm') as [-> ->]. split; [done | lia].
      * simpl. lia.
    + exists (GetObject (in_bucket a) (in_key_of a d) :: puts), [d], ds.
      split; [done |]. split; [done |].
      split; [simpl; by rewrite Hr |].
      assert (Hmp : markers_put (GetObject (in_bucket a) (in_key_of a d) :: puts)
                    = markers_put puts) by done.
      rewrite Hmp, Hm. split; [done | simpl; lia].
Qed.

(** The run reads the outstanding dates in ascending order, one read per
    date, each at the input key of its date, and stops reading at the date
    that raises; when [process_kind] returns, it has read every outstanding
    date. *)
Theorem dates_are_read_in_ascending_order (w : world) (raw : args) (st : state) :
  ∃ evs read unread,
    outstanding (normalized raw) st = read ++ unread
    ∧ StronglySorted str_lt (read ++ unread)
    ∧ trace (process_kind w raw st).1
      = trace st ++ ListObjects (in_bucket raw) (normalize (in_prefix raw))
                  :: ListObjects (out_bucket raw) (normalize (marker_prefix raw)) :: evs
    ∧ reads evs = (fun d => (in_bucket raw, in_key_of (normalized raw) d)) <$> read
    ∧ (∀ s, (process_kind w raw st).2 = Ok s → unread = []).
Proof.
  destruct (for_dates_trace w (normalized raw) (listed (normalized raw) st) 0
              (outstanding (normalized raw) st))
    as (evs & ds1 & ds2 & Hds & Ht & Hr & Hok & _).
  exists evs, ds1, ds2. split; [done |]. split; [|split; [|split]].
  - rewrite <- Hds. apply sorted_ascending.
  - rewrite process_kind_state, Ht. simpl. by rewrite <- !app_assoc.
  - done.
  - intros s Hs. rewrite process_kind_unfold in Hs.
    destruct (for_dates _ _ _ _ _) as [st3 [m|e]]; [|done].
    by destruct (Hok m eq_refl).
Qed.

(** The counter that [process_kind] returns as [processed_days] is the
    number of markers that the run has put, and it is at most the number
    of outstanding dates, which is at most the number of input dates. *)
Theorem processed_days_counts_markers (w : world) (raw : args) (st st' : state)
    (s : summary) :
  process_kind w raw st = (st', Ok s) →
  ∃ evs,
    trace st' = trace st ++ ListObjects (in_bucket raw) (normalize (in_prefix raw))
                  :: ListObjects (out_bucket raw) (normalize (marker_prefix raw)) :: evs
    ∧ processed_days s = markers_put evs
    ∧ (processed_days s ≤ length (missing_dates s))%nat
    ∧ (length (missing_dates s) ≤ input_files s)%nat.
Proof.
  rewrite process_kind_unfold. intros Hrun.
  destruct (for_dates_trace w (normalized raw) (listed (normalized raw) st) 0
              (outstanding (normalized raw) st))
    as (evs & ds1 & ds2 & Hds & Ht & _ & Hok & Hle).
  destruct (for_dates _ _ _ _ _) as [st3 [m|e]]; [|done].
  simpl in *. injection Hrun as -> <-. simpl.
  destruct (Hok m eq_refl) as [-> ->]. rewrite app_nil_r in Hds.
  exists evs. split; [rewrite Ht; simpl; by rewrite <- !app_assoc |].
  split; [done |]. split; [rewrite Hds; simpl; lia |].
  unfold outstanding, sorted. rewrite merge_sort_Permutation.
  change (size (input_dates_in (normalized raw) st ∖ done_dates_in (normalized raw) st)
          ≤ size (input_dates_in (normalized raw) st)).
  apply subseteq_size. set_solver.
Qed.

(** ** What a run leaves for the next one *)

Lemma unit_key_other_date raw d d' bk :
  has_sep d = false → has_sep d' = false → d ≠ d' →
  unit_key (normalized raw) d' bk →
  bk ≠ (out_bucket raw, marker_key_of (normalized raw) d)
  ∧ (∀ k, bk ≠ (out_bucket raw, out_key_of (normalized raw) k d))
  ∧ bk ≠ (in_bucket raw, in_key_of (normalized raw) d).
Proof.
  intros Hd Hd' Hne [-> | [k' ->]]; (split; [|split]).
  - intros [= H%marker_key_inj]. done.
  - intros k [= H]. symmetry in H. by apply out_key_is_not_marker_key in H.
  - intros [= _ H]. symmetry in H. by apply in_key_is_not_marker_key in H.
  - intros [= H]. by apply out_key_is_not_marker_key in H.
  - intros k [= H%(f_equal (unit_id ".parquet"))].
    rewrite !unit_id_out_key in H by done. congruence.
  - intros [= _ H%(f_equal (unit_id ".parquet"))].
    rewrite unit_id_out_key in H by done.
    unfold in_key_of in H. simpl in H. unfold normalize in H.
    rewrite str_app_assoc, unit_id_of_key in H by done. congruence.
Qed.

Lemma run_extends w raw st :
  (∀ bk, is_Some (objects st !! bk) → is_Some (objects (process_kind w raw st).1 !! bk))
  ∧ (∀ bk, objects (process_kind w raw st).1 !! bk ≠ objects st !! bk →
       ∃ d, d ∈ outstanding (normalized raw) st ∧ unit_key (normalized raw) d bk).
Proof.
  rewrite process_kind_state.
  destruct (for_dates_extends w (normalized raw) (listed (normalized raw) st) 0
              (outstanding (normalized raw) st)) as (_ & Hkeep & Hnew).
  by split.
Qed.

(** A run never removes a key from the store, and every object it
    creates or replaces is a partition or the marker of a date that was
    outstanding when the run began: the partitions and the markers of the
    other dates are left as they were. *)
Theorem run_touches_only_outstanding_dates (w : world) (raw : args) (st : state) :
  (∀ bk, is_Some (objects st !! bk) → is_Some (objects (process_kind w raw st).1 !! bk))
  ∧ (∀ bk, objects (process_kind w raw st).1 !! bk ≠ objects st !! bk →
       ∃ d, d ∈ outstanding (normalized raw) st
            ∧ (bk = (out_bucket raw, marker_key_of (normalized raw) d)
               ∨ ∃ k, bk = (out_bucket raw, out_key_of (normalized raw) k d)))
  ∧ (∀ d k, has_sep d = false → d ∉ outstanding (normalized raw) st →
       objects (process_kind w raw st).1 !! (out_bucket raw, marker_key_of (normalized raw) d)
       = objects st !! (out_bucket raw, marker_key_of (normalized raw) d)
       ∧ objects (process_kind w raw st).1 !! (out_bucket raw, out_key_of (normalized raw) k d)
         = objects st !! (out_bucket raw, out_key_of (normalized raw) k d)).
Proof.
  destruct (run_extends w raw st) as (Hkeep & Hnew).
  split; [exact Hkeep |]. split; [exact Hnew |].
  intros d k Hd Hout.
  assert (Hfix : ∀ bk,
            (∀ d', d' ∈ outstanding (normalized raw) st →
                   unit_key (normalized raw) d' bk → False) →
            objects (process_kind w raw st).1 !! bk = objects st !! bk).
  { intros bk Hno.
    destruct (decide (objects (process_kind w raw st).1 !! bk = objects st !! bk))
      as [Heq | Hne]; [done |].
    destruct (Hnew bk Hne) as (d' & Hd' & Hu). by destruct (Hno d' Hd' Hu). }
  split; apply Hfix; intros d' Hd' Hu;
    (assert (d ≠ d') by (by intros ->));
    destruct (unit_key_other_date raw d d' _ Hd
                (outstanding_has_no_sep _ _ _ Hd') ltac:(done) Hu) as (H1 & H2 & _).
  - by apply H1.
  - by apply (H2 k).
Qed.

Lemma outstanding_after w raw st u :
  u ∈ outstanding (normalized raw) (process_kind w raw st).1
  ↔ u ∈ outstanding (normalized raw) st
    ∧ objects (process_kind w raw st).1
        !! (out_bucket raw, marker_key_of (normalized raw) u) = None.
Proof.
  destruct (run_extends w raw st) as (Hkeep & Hnew).
  pose proof (input_dates_stable w (normalized raw) st 0) as Hin.
  pose proof (done_dates_grow w (normalized raw) st 0) as Hdone.
  rewrite <- process_kind_state in Hin, Hdone.
  rewrite !elem_of_outstanding, Hin. split.
  - intros [Hu Hnd]. split; [split; [done | by intros ?%Hdone] |].
    destruct (objects (process_kind w raw st).1 !! _) as [o|] eqn:Ho; [|done].
    destruct Hnd. apply marker_in_store_is_done.
    + apply elem_of_input_dates in Hu as (k & _ & _ & _ & Hk).
      by eapply unit_id_has_no_sep.
    + by rewrite Ho.
  - intros [[Hu Hnd] Hnone]. split; [done |].
    intros (k & Hk & Hp & He & Hid)%elem_of_done_dates.
    destruct (objects st !! (out_bucket (normalized raw), k)) as [o|] eqn:Hold.
    { apply Hnd, elem_of_done_dates. exists k. by rewrite Hold. }
    destruct (Hnew (out_bucket (normalized raw), k)) as (d & Hd & Hkey).
    { rewrite Hold. by destruct Hk as [? ->]. }
    destruct Hkey as [[= ->] | [item [= ->]]].
    + rewrite unit_id_marker_key in Hid by (by eapply outstanding_has_no_sep).
      injection Hid as ->. simpl in Hk. rewrite Hnone in Hk. by destruct Hk.
    + by rewrite out_key_is_no_json in He.
Qed.

(** After any run, whether it returned or raised, the dates outstanding
    for the next run are the dates that were outstanding before and whose
    marker the run has not put: what a run leaves unfinished is taken up
    again, and nothing else. *)
Theorem unmarked_dates_stay_outstanding (w : world) (raw : args) (st : state) (u : string) :
  u ∈ outstanding (normalized raw) (process_kind w raw st).1
  ↔ u ∈ outstanding (normalized raw) st
    ∧ objects (process_kind w raw st).1
        !! (out_bucket raw, marker_key_of (normalized raw) u) = None.
Proof. apply outstanding_after. Qed.

Lemma yielded_ok_when_accepted w a date df :
  Forall (fun t : task => put_fails w t.1.2 t.2 = false) (submitted a date df) →
  yielded w a date df = Ok <$> ok_keys (yielded w a date df).
Proof.
  intros Hall. apply all_ok_fmap. unfold yielded.
  rewrite yield_order_perm, task_result_all_ok by (by rewrite start_order_perm).
  rewrite Forall_fmap. by apply Forall_true.
Qed.

(** When every partition of a unit is put and the put of its marker is
    rejected, [process_kind] raises the error of that put: the partitions
    are in the store, the marker is not, and no later date is touched. *)
Theorem rejected_marker_aborts_run (w : world) (raw : args) (st0 : state)
    (before : list string) (date : string) (rest : list string) (st : state)
    (n : nat) (df : DataFrame) :
  reaches w raw st0 before date rest st n →
  splittable w (normalized raw) st date df →
  Forall (fun t : task => put_fails w t.1.2 t.2 = false) (submitted (normalized raw) date df) →
  put_fails w (out_bucket raw) (marker_key_of (normalized raw) date) = true →
  process_kind w raw st0
  = (log (PutFailed (out_bucket raw) (marker_key_of (normalized raw) date))
       (after_writes w (normalized raw) st date df),
     Raise (PutError (out_bucket raw) (marker_key_of (normalized raw) date)))
  ∧ (∀ t : task, t ∈ submitted (normalized raw) date df →
       ∃ sub, objects (after_writes w (normalized raw) st date df) !! (t.1.2, t.2)
              = Some (ParquetFile sub))
  ∧ objects (after_writes w (normalized raw) st date df)
      !! (out_bucket raw, marker_key_of (normalized raw) date)
    = objects st !! (out_bucket raw, marker_key_of (normalized raw) date).
Proof.
  intros Hreach Hs Hall Hm. split; [|split].
  - rewrite (process_kind_reaches _ _ _ _ _ _ _ _ Hreach).
    erewrite for_dates_raise; [reflexivity |].
    rewrite (process_date_write_phase _ _ _ _ _ Hs).
    rewrite (yielded_ok_when_accepted _ _ _ _ Hall), collect_ok. simpl.
    unfold put_json, put_object. simpl. by rewrite Hm.
  - intros t Ht.
    destruct (written_lookup_landed w
                (start_order w (submitted (normalized raw) date df)) (objects st) t)
      as (t' & _ & _ & Hl); [by rewrite start_order_perm | |by exists t'.1.1].
    by eapply Forall_forall in Hall.
  - apply (after_writes_spares_marker w (normalized raw)).
Qed.

(** With [MAX_WORKERS] at zero or below, the pool cannot be created: the
    first outstanding date whose table is not empty and has the key column
    ends the run with a [ValueError], before any put. *)
Theorem no_workers_aborts_run (w : world) (raw : args) (st0 : state)
    (before : list string) (date : string) (rest : list string) (st : state)
    (n : nat) (df : DataFrame) :
  reaches w raw st0 before date rest st n →
  objects st !! (in_bucket raw, in_key_of (normalized raw) date) = Some (ParquetFile df) →
  empty df = false →
  has_column "Item_ID" df = true →
  (MAX_WORKERS w ≤ 0)%Z →
  process_kind w raw st0
  = ({| objects := objects st;
        trace := trace st ++ [GetObject (in_bucket raw) (in_key_of (normalized raw) date)] |},
     Raise (ValueError "max_workers must be greater than 0")).
Proof.
  intros Hreach Hobj Hne Hcol Hmw.
  rewrite (process_kind_reaches _ _ _ _ _ _ _ _ Hreach).
  erewrite for_dates_raise; [reflexivity |].
  unfold process_date, read_parquet_s3. simpl. rewrite Hobj, Hne, Hcol. simpl.
  by rewrite bool_decide_eq_true_2.
Qed.

(** An input object that is not a Parquet file ends the run: only the
    absence of the key is caught at line 150, any other failure of the read
    propagates, before any put and before any later date. *)
Theorem undecodable_input_aborts_run (w : world) (raw : args) (st0 : state)
    (before : list string) (date : string) (rest : list string) (st : state)
    (n : nat) (doc : marker_doc) :
  reaches w raw st0 before date rest st n →
  objects st !! (in_bucket raw, in_key_of (normalized raw) date) = Some (JsonFile doc) →
  process_kind w raw st0
  = ({| objects := objects st;
        trace := trace st ++ [GetObject (in_bucket raw) (in_key_of (normalized raw) date)] |},
     Raise (ArrowInvalid (in_bucket raw) (in_key_of (normalized raw) date))).
Proof.
  intros Hreach Hobj.
  rewrite (process_kind_reaches _ _ _ _ _ _ _ _ Hreach).
  erewrite for_dates_raise; [reflexivity |].
  unfold process_date, read_parquet_s3. simpl. by rewrite Hobj.
Qed.

(** ** Tables without keys, rejected writes and nested inputs *)

Lemma group_positions_no_key df :
  (∀ i, (i < nrows df)%nat → key_at "Item_ID" df i = None) →
  group_positions "Item_ID" df = [].
Proof.
  intros Hnull. apply fmap_nil_inv with (f := fst).
  apply elem_of_nil_inv. intros k (i & Hi & Hk)%elem_of_group_keys.
  by rewrite (Hnull i Hi) in Hk.
Qed.

(** A table that has rows but no value at all in [Item_ID] is processed
    as any other: nothing is submitted to the pool, and the marker is put
    with no output and a count of zero, so the date is done although no
    row of it was written. *)
Theorem table_without_keys_is_marked (w : world) (raw : args) (st0 : state)
    (before : list string) (date : string) (rest : list string) (st : state)
    (n : nat) (df : DataFrame) :
  reaches w raw st0 before date rest st n →
  splittable w (normalized raw) st date df →
  (∀ i, (i < nrows df)%nat → key_at "Item_ID" df i = None) →
  put_fails w (out_bucket raw) (marker_key_of (normalized raw) date) = false →
  ∃ st1 doc,
    process_date w (normalized raw) st date = (st1, Ok Marked)
    ∧ trace st1 = trace st ++ [GetObject (in_bucket raw) (in_key_of (normalized raw) date);
                               PutObject (out_bucket raw) (marker_key_of (normalized raw) date)]
    ∧ objects st1 !! (out_bucket raw, marker_key_of (normalized raw) date)
      = Some (JsonFile doc)
    ∧ doc_outputs doc = []
    ∧ doc_output_count doc = 0%nat
    ∧ process_kind w raw st0
      = finish (normalized raw) st0 (for_dates w (normalized raw) st1 (S n) rest).
Proof.
  intros Hreach Hs Hnull Hm.
  assert (Hsub : submitted (normalized raw) date df = []).
  { unfold submitted, groupby. by rewrite group_positions_no_key. }
  destruct (process_date_marked w (normalized raw) st date df Hs) as [Hpd Hkeys];
    [by rewrite Hsub | done |].
  rewrite Hsub in Hkeys. apply Permutation_nil_r in Hkeys.
  assert (Hstart : start_order w (submitted (normalized raw) date df) = []).
  { apply Permutation_nil_r. by rewrite start_order_perm, Hsub. }
  eexists _, _. split; [exact Hpd |]. split; [|split; [|split; [|split]]].
  - simpl. rewrite Hstart. simpl. by rewrite <- app_assoc.
  - simpl. by rewrite lookup_insert_eq.
  - simpl. by rewrite Hkeys.
  - simpl. by rewrite Hkeys.
  - rewrite (process_kind_reaches _ _ _ _ _ _ _ _ Hreach). f_equal.
    by apply for_dates_marked.
Qed.

Lemma untouched_by_other_dates w raw n ds st d :
  has_sep d = false →
  Forall (fun x => has_sep x = false) ds →
  d ∉ ds →
  objects (for_dates w (normalized raw) st n ds).1
    !! (out_bucket raw, marker_key_of (normalized raw) d)
  = objects st !! (out_bucket raw, marker_key_of (normalized raw) d)
  ∧ objects (for_dates w (normalized raw) st n ds).1
      !! (in_bucket raw, in_key_of (normalized raw) d)
    = objects st !! (in_bucket raw, in_key_of (normalized raw) d).
Proof.
  intros Hd Hds Hnot.
  destruct (for_dates_extends w (normalized raw) st n ds) as (_ & _ & Hnew).
  assert (Hfix : ∀ bk,
            (∀ d', d' ∈ ds → unit_key (normalized raw) d' bk → False) →
            objects (for_dates w (normalized raw) st n ds).1 !! bk = objects st !! bk).
  { intros bk Hno.
    destruct (decide (objects (for_dates w (normalized raw) st n ds).1 !! bk
                      = objects st !! bk)) as [Heq | Hne]; [done |].
    destruct (Hnew bk Hne) as (d' & Hd' & Hu). by destruct (Hno d' Hd' Hu). }
  split; apply Hfix; intros d' Hd' Hu;
    (assert (d ≠ d') by (by intros ->));
    (assert (has_sep d' = false) by (by eapply Forall_forall in Hds));
    destruct (unit_key_other_date raw d d' _ Hd ltac:(done) ltac:(done) Hu)
      as (H1 & _ & H3); done.
Qed.

Lemma outstanding_all_no_sep a st :
  Forall (fun x => has_sep x = false) (outstanding a st).
Proof. apply Forall_forall. intros x. apply outstanding_has_no_sep. Qed.

Lemma outstanding_has_no_marker raw st d :
  d ∈ outstanding (normalized raw) st →
  objects st !! (out_bucket raw, marker_key_of (normalized raw) d) = None.
Proof.
  intros Hd.
  destruct (objects st !! (out_bucket raw, marker_key_of (normalized raw) d))
    as [o|] eqn:Ho; [|done].
  apply elem_of_outstanding in Hd as Hd'. destruct Hd' as [_ Hnd]. destruct Hnd.
  apply marker_in_store_is_done; [by eapply outstanding_has_no_sep | by rewrite Ho].
Qed.

(** What the loop finds when it reaches a date: the marker of the date
    is absent, and its input key holds what it held when the run began. *)
Lemma reached_date_is_untouched w raw st0 before date rest st n :
  reaches w raw st0 before date rest st n →
  objects st !! (out_bucket raw, marker_key_of (normalized raw) date) = None
  ∧ objects st !! (in_bucket raw, in_key_of (normalized raw) date)
    = objects st0 !! (in_bucket raw, in_key_of (normalized raw) date).
Proof.
  intros [Hout Hfor].
  assert (Hin : date ∈ outstanding (normalized raw) st0).
  { rewrite Hout. apply elem_of_app. right. by left. }
  assert (Hnd : NoDup (before ++ date :: rest)) by (rewrite <- Hout; apply NoDup_sorted).
  apply NoDup_app in Hnd as (_ & Hnb & _).
  pose proof (outstanding_all_no_sep (normalized raw) st0) as Hsep.
  rewrite Hout in Hsep. apply Forall_app in Hsep as [Hsb _].
  destruct (untouched_by_other_dates w raw 0 before (listed (normalized raw) st0) date)
    as [Hm Hi]; [by eapply outstanding_has_no_sep | done | |].
  { intros Hb. apply (Hnb date Hb). by left. }
  rewrite Hfor in Hm, Hi. simpl in Hm, Hi.
  split; [|done]. rewrite Hm. by apply outstanding_has_no_marker.
Qed.

(** A date whose partition write was rejected is outstanding again for
    the next run: the run that raised has put no marker for it. *)
Theorem failed_date_stays_outstanding (w : world) (raw : args) (st0 : state)
    (before : list string) (date : string) (rest : list string) (st : state)
    (n : nat) (df : DataFrame) (t : task) :
  reaches w raw st0 before date rest st n →
  splittable w (normalized raw) st date df →
  t ∈ submitted (normalized raw) date df →
  put_fails w t.1.2 t.2 = true →
  date ∈ outstanding (normalized raw) (process_kind w raw st0).1.
Proof.
  intros Hreach Hs Ht Hf. apply outstanding_after.
  destruct (reached_date_is_untouched _ _ _ _ _ _ _ _ Hreach) as [Hmark _].
  split; [destruct Hreach as [-> _]; apply elem_of_app; right; by left |].
  rewrite (process_kind_reaches _ _ _ _ _ _ _ _ Hreach), finish_state.
  assert (Hbad : ¬ Forall is_ok (yielded w (normalized raw) date df)).
  { unfold yielded. rewrite yield_order_perm.
    apply (task_result_some_fail w _ t); [by rewrite start_order_perm | done]. }
  destruct (futures_split (yielded w (normalized raw) date df))
    as [[ks Hy] | (ks & e & post & Hy)].
  { destruct Hbad. rewrite Hy, Forall_fmap. by apply Forall_true. }
  rewrite (for_dates_raise w (normalized raw) st n date rest
             (after_writes w (normalized raw) st date df) e).
  - simpl. rewrite <- Hmark.
    apply (after_writes_spares_marker w (normalized raw) st date df date).
  - rewrite (process_date_write_phase _ _ _ _ _ Hs). by rewrite Hy, collect_raise.
Qed.

(** An input listed under the prefix whose date has no object at the
    flat input key (the listed key lies deeper, in a sub-folder) makes the
    date outstanding, and leaves it so: every run skips the date as
    missing, puts nothing for it, and finds it outstanding again. *)
Theorem nested_input_is_never_processed (w : world) (raw : args) (st : state)
    (k d : string) :
  is_Some (objects st !! (in_bucket raw, k)) →
  startswith k (normalize (in_prefix raw)) = true →
  endswith k ".parquet" = true →
  unit_id ".parquet" k = Some d →
  d ∉ done_dates_in (normalized raw) st →
  objects st !! (in_bucket raw, in_key_of (normalized raw) d) = None →
  d ∈ outstanding (normalized raw) st
  ∧ d ∈ outstanding (normalized raw) (process_kind w raw st).1
  ∧ objects (process_kind w raw st).1 !! (in_bucket raw, in_key_of (normalized raw) d) = None
  ∧ objects (process_kind w raw st).1 !! (out_bucket raw, marker_key_of (normalized raw) d)
    = None.
Proof.
  intros Hk Hp He Hid Hnd Hflat.
  assert (Hout : d ∈ outstanding (normalized raw) st).
  { apply elem_of_outstanding. split; [|done]. apply elem_of_input_dates. by exists k. }
  assert (Hsep : has_sep d = false) by (by eapply outstanding_has_no_sep).
  pose proof (outstanding_has_no_marker raw st d Hout) as Hmark.
  assert (Hboth :
    objects (process_kind w raw st).1 !! (out_bucket raw, marker_key_of (normalized raw) d)
    = None
    ∧ objects (process_kind w raw st).1 !! (in_bucket raw, in_key_of (normalized raw) d)
      = None).
  { rewrite process_kind_state.
    apply list_elem_of_split in Hout as Hsplit. destruct Hsplit as (ds1 & ds2 & Hds).
    assert (Hnd' : NoDup (ds1 ++ d :: ds2)) by (rewrite <- Hds; apply NoDup_sorted).
    apply NoDup_app in Hnd' as (_ & Hn1 & [Hn2 _]%NoDup_cons).
    pose proof (outstanding_all_no_sep (normalized raw) st) as Hall.
    rewrite Hds in Hall. apply Forall_app in Hall as [Hs1 [_ Hs2]%Forall_cons].
    rewrite Hds, for_dates_app.
    destruct (untouched_by_other_dates w raw 0 ds1 (listed (normalized raw) st) d)
      as [Hm1 Hi1]; [done | done | |].
    { intros Hin. apply (Hn1 d Hin). by left. }
    destruct (for_dates w (normalized raw) (listed (normalized raw) st) 0 ds1)
      as [st1 [n1|e]] eqn:Hfor; simpl in Hm1, Hi1; [|simpl; by rewrite Hm1, Hi1].
    assert (Hpd : process_date w (normalized raw) st1 d
                  = (log (GetObject (in_bucket raw) (in_key_of (normalized raw) d)) st1,
                     Ok SkippedMissing)).
    { unfold process_date, read_parquet_s3. simpl. by rewrite Hi1, Hflat. }
    rewrite (for_dates_skip _ _ _ _ _ _ _ _ Hpd) by done.
    destruct (untouched_by_other_dates w raw n1 ds2
                (log (GetObject (in_bucket raw) (in_key_of (normalized raw) d)) st1) d)
      as [Hm2 Hi2]; [done | done | done |].
    rewrite Hm2, Hi2. simpl. by rewrite Hm1, Hi1. }
  destruct Hboth as [Hm Hi].
  split; [done |]. split; [by apply outstanding_after |]. by split.
Qed.

(** ** What a processed unit leaves in the store *)



(** ** The further properties at work on concrete cases *)

Lemma get_arg_flag_first_witness :
  get_arg Edge.argv Edge.environ "KIND" None = ArgValue (Some "sales").
Proof.
  apply (get_arg_flag_first Edge.argv Edge.environ "KIND" None
           ["job.py"] ["--KIND"; "other"] "sales").
  - reflexivity.
  - apply (bool_decide_unpack _). by vm_compute.
Defined.

Lemma get_arg_flag_last_raises_witness :
  get_arg ["job.py"; "--KIND"] Edge.environ "KIND" (Some "fallback") = ArgIndexError.
Proof.
  apply (get_arg_flag_last_raises ["job.py"; "--KIND"] Edge.environ "KIND"
           (Some "fallback") ["job.py"]).
  - reflexivity.
  - apply (bool_decide_unpack _). by vm_compute.
Defined.

Lemma list_keys_paging_irrelevant_witness :
  keys_of_pages ".parquet" Edge.pages
  = (list_keys_with_suffix Scenario.before "src" "in/" ".parquet").2.
Proof.
  apply (list_keys_paging_irrelevant Scenario.before "src" "in/" ".parquet" Edge.pages).
  by vm_compute.
Defined.

Lemma keys_are_read_back_as_their_date_witness :
  unit_id ".json" (marker_key_of (normalized Scenario.job) "20250101") = Some "20250101".
Proof.
  destruct (keys_are_read_back_as_their_date Scenario.job "20250101" (Str "A"))
    as (_ & _ & Hm & _).
  - reflexivity.
  - exact Hm.
Defined.

Lemma processed_days_counts_markers_witness :
  ∃ evs, trace (process_kind Scenario.calm Scenario.job Scenario.before).1
         = ListObjects "src" "in/" :: ListObjects "dst" "marker/" :: evs
         ∧ markers_put evs = 1%nat.
Proof.
  destruct (processed_days_counts_markers Scenario.calm Scenario.job Scenario.before
              (process_kind Scenario.calm Scenario.job Scenario.before).1
              {| sum_kind := "demo"; input_files := 2; output_files := 0;
                 missing_dates := ["20250101"; "20250108"]; processed_days := 1 |})
    as (evs & Ht & Hn & _).
  - by vm_compute.
  - exists evs. split; [exact Ht | by rewrite <- Hn].
Defined.

Lemma rejected_marker_aborts_run_witness :
  (process_kind Edge.marker_down Scenario.job Scenario.before).2
  = Raise (PutError "dst" "marker/20250101.json").
Proof.
  destruct (rejected_marker_aborts_run Edge.marker_down Scenario.job Scenario.before
              [] "20250101" ["20250108"]
              (listed (normalized Scenario.job) Scenario.before) 0 Scenario.day1)
    as (Hrun & _).
  - split; by vm_compute.
  - repeat split; by vm_compute.
  - vm_compute. repeat constructor.
  - by vm_compute.
  - by rewrite Hrun.
Defined.

Lemma no_workers_aborts_run_witness :
  (process_kind Edge.no_pool Scenario.job Scenario.before).2
  = Raise (ValueError "max_workers must be greater than 0").
Proof.
  rewrite (no_workers_aborts_run Edge.no_pool Scenario.job Scenario.before
             [] "20250101" ["20250108"]
             (listed (normalized Scenario.job) Scenario.before) 0 Scenario.day1).
  - done.
  - split; by vm_compute.
  - by vm_compute.
  - by vm_compute.
  - by vm_compute.
  - by vm_compute.
Defined.

Lemma undecodable_input_aborts_run_witness :
  (process_kind Scenario.calm Scenario.job Edge.garbled).2
  = Raise (ArrowInvalid "src" "in/20250101.parquet").
Proof.
  rewrite (undecodable_input_aborts_run Scenario.calm Scenario.job Edge.garbled
             [] "20250101" [] (listed (normalized Scenario.job) Edge.garbled) 0 Edge.stray).
  - done.
  - split; by vm_compute.
  - by vm_compute.
Defined.

Lemma table_without_keys_is_marked_witness :
  ∃ st1 doc,
    process_date Scenario.calm (normalized Scenario.job)
      (listed (normalized Scenario.job) Edge.before_keyless) "20250101" = (st1, Ok Marked)
    ∧ objects st1 !! ("dst", "marker/20250101.json") = Some (JsonFile doc)
    ∧ doc_output_count doc = 0%nat.
Proof.
  destruct (table_without_keys_is_marked Scenario.calm Scenario.job Edge.before_keyless
              [] "20250101" [] (listed (normalized Scenario.job) Edge.before_keyless) 0
              Edge.keyless)
    as (st1 & doc & Hpd & _ & Hdoc & _ & Hn & _).
  - split; by vm_compute.
  - repeat split; by vm_compute.
  - intros [|[|i]] Hi; [by vm_compute | by vm_compute | simpl in Hi; lia].
  - by vm_compute.
  - by exists st1, doc.
Defined.

Lemma failed_date_stays_outstanding_witness :
  "20250101" ∈ outstanding (normalized Scenario.job)
                 (process_kind Scenario.flaky Scenario.job Scenario.before).1.
Proof.
  apply (failed_date_stays_outstanding Scenario.flaky Scenario.job Scenario.before
           [] "20250101" ["20250108"]
           (listed (normalized Scenario.job) Scenario.before) 0 Scenario.day1
           (take [2%nat] Scenario.day1, "dst", "out/B/20250101.parquet")).
  - split; by vm_compute.
  - repeat split; by vm_compute.
  - vm_compute. right. left.
  - by vm_compute.
Defined.

Lemma nested_input_is_never_processed_witness :
  "20250101" ∈ outstanding (normalized Scenario.job)
                 (process_kind Scenario.calm Scenario.job Edge.nested).1.
Proof.
  destruct (nested_input_is_never_processed Scenario.calm Scenario.job Edge.nested
              "in/2025/20250101.parquet" "20250101") as (_ & Hafter & _).
  - apply (bool_decide_unpack _). by vm_compute.
  - by vm_compute.
  - by vm_compute.
  - by vm_compute.
  - apply (bool_decide_unpack _). by vm_compute.
  - by vm_compute.
  - exact Hafter.
Defined.

